(** * GetSeq: the Ensembl REST client of [getseq_cmd.py]

    A shallow embedding of [EnsemblRestClient] and of the three commands
    built on it ([retrieve_seq], [retrieve_genomes], [retrieve_assemblies]),
    followed by the properties of region normalisation, batching, rate
    limiting and retrieval.

    Conventions of the embedding.
    - A Python [str] is a [string], one [ascii] per character.
    - A Python [int] is a [Z]; [time.time()] and [time.sleep] work on an
      explicit clock of type [Q] (exact arithmetic instead of floats).
    - A column of the parsed frame has the [dtype] that its cells give it,
      and a float of the frame is held by the decimal digits that [str]
      prints for it.
    - A method is a computation in the monad [M]: it threads the state of
      the process (the client object, the clock and the trace of effects)
      and ends in a value or in a raised exception.  The state survives a
      raised exception, as the attributes of a Python object do.
    - [pandas.read_csv], [json.dumps], [urllib.parse.urlencode] and the
      upstream server are the environment: the parsed frame is the input of
      [get_regions], the two encoders and the server are section variables.
    - A body that decodes is taken to have one of the three shapes of the
      upstream API; what the code does with a document of another shape is
      not described here, and no property below speaks of it.
    - [logging] calls are left out of the trace. *)

From Stdlib Require Import List String Ascii Bool Arith ZArith QArith Lia.
From Stdlib Require Import DecimalString Sorted Permutation Lqa.
Import ListNotations.

Local Open Scope string_scope.
Local Open Scope list_scope.

(** ** Python strings *)

Module PyStr.

(** [str(n)] for an integer. *)
Definition of_Z (z : Z) : string := NilZero.string_of_int (Z.to_int z).

(** [c.isdigit()] on the characters below 256: the decimal digits and the
    superscripts two, three and one. *)
Definition isdigit_char (c : ascii) : bool :=
  let n := nat_of_ascii c in
  ((48 <=? n) && (n <=? 57))%nat
  || (n =? 178)%nat || (n =? 179)%nat || (n =? 185)%nat.

Fixpoint all_digits (s : string) : bool :=
  match s with
  | EmptyString => true
  | String c s' => isdigit_char c && all_digits s'
  end.

(** [s.isdigit()]: at least one character, all of them digits. *)
Definition isdigit (s : string) : bool :=
  match s with
  | EmptyString => false
  | _ => all_digits s
  end.

(** [sub in s]. *)
Fixpoint contains (sub s : string) : bool :=
  match s with
  | EmptyString => prefix sub EmptyString
  | String _ s' => prefix sub s || contains sub s'
  end.

(** [s.replace(old, new)] for a non-empty [old]: the occurrences of [old]
    are found from left to right and do not overlap.  [skip] counts the
    characters of the current occurrence that are still to be passed. *)
Fixpoint replace_from (old new : string) (skip : nat) (s : string) : string :=
  match s with
  | EmptyString => EmptyString
  | String c s' =>
      match skip with
      | S k => replace_from old new k s'
      | O =>
          if prefix old s
          then new ++ replace_from old new (String.length old - 1) s'
          else String c (replace_from old new 0 s')
      end
  end.

Definition replace (old new s : string) : string := replace_from old new 0 s.

(** ["%-40s" % s]: [s] padded with spaces on the right up to [width]. *)
Fixpoint spaces (n : nat) : string :=
  match n with
  | O => EmptyString
  | S k => String " " (spaces k)
  end.

Definition ljust (width : nat) (s : string) : string :=
  s ++ spaces (width - String.length s).

(** [c * n] for a one-character string. *)
Fixpoint repeat_char (c : ascii) (n : nat) : string :=
  match n with
  | O => EmptyString
  | S k => String c (repeat_char c k)
  end.

Definition newline : string := String (ascii_of_nat 10) EmptyString.

(** [str(n)] for a natural number. *)
Definition of_N (n : N) : string := NilZero.string_of_uint (N.to_uint n).

(** A float that is not nan: an infinity, or the number
    [digits * 10 ^ exponent] with its sign, where [digits] are the
    significant digits that [repr] prints (the shortest that read back as
    the same double). *)
Inductive float : Type :=
| Inf (negative : bool)
| Finite (negative : bool) (digits : N) (exponent : Z).

(** The digits without zeros at their end; zero is [0 * 10 ^ 0]. *)
Fixpoint strip_zeros (fuel : nat) (digits : N) (exponent : Z) : N * Z :=
  match fuel with
  | O => (digits, exponent)
  | S k =>
      if (digits =? 0)%N then (0%N, 0%Z)
      else if (digits mod 10 =? 0)%N then strip_zeros k (digits / 10)%N (exponent + 1)%Z
      else (digits, exponent)
  end.

(** [str(x)] for a float, as [repr] formats it: with the point at its
    place while the number of digits before the point is between -3 and 16,
    with an exponent of at least two digits otherwise; [".0"] closes a
    number without a fraction. *)
Definition of_float (x : float) : string :=
  match x with
  | Inf negative => (if negative then "-" else "") ++ "inf"
  | Finite negative digits exponent =>
      let (digits, exponent) := strip_zeros (S (N.to_nat (N.size digits))) digits exponent in
      let ds := of_N digits in
      let n := String.length ds in
      let decpt := (Z.of_nat n + exponent)%Z in
      (if negative then "-" else "") ++
      (if ((-4 <? decpt) && (decpt <=? 16))%Z then
         if (decpt <=? 0)%Z then
           "0." ++ repeat_char "0" (Z.to_nat (- decpt)) ++ ds
         else if (Z.of_nat n <=? decpt)%Z then
           ds ++ repeat_char "0" (Z.to_nat decpt - n) ++ ".0"
         else
           substring 0 (Z.to_nat decpt) ds ++ "."
             ++ substring (Z.to_nat decpt) (n - Z.to_nat decpt) ds
       else
         let e := (decpt - 1)%Z in
         substring 0 1 ds
           ++ (if (1 <? n)%nat then "." ++ substring 1 (n - 1) ds else "")
           ++ "e" ++ (if (e <? 0)%Z then "-" else "+")
           ++ (if (Z.abs e <? 10)%Z then "0" else "") ++ of_N (Z.abs_N e))
  end.

End PyStr.

(** ** The parsed input table *)

(** One cell of the frame [pandas.read_csv] returns: an integer, a float
    that is a number or an infinity, a string, a truth value, or nan, the
    float that stands for a missing field and that [Series.str] methods
    give for an element that is no string. *)
Inductive cell : Type :=
| CInt (z : Z)
| CFloat (x : PyStr.float)
| CStr (s : string)
| CBool (b : bool)
| CNaN.

(** The three columns kept by [usecols=[0, 1, 2]]. *)
Record row : Type := mkRow { chrom : cell; start : cell; end_ : cell }.

(** What [pd.read_csv] does: it returns a frame, or raises a [ValueError]
    (a missing column, an empty file, bytes that do not decode) with a
    message, or raises an exception of another class ([FileNotFoundError]
    for a path that is not there). *)
Inductive csv_result : Type :=
| Frame (reads : list row)
| ReadValueError (msg : string)
| ReadRaises (class : string).

(** [str(x)] of a cell, also what [astype(str)] does to it. *)
Definition astype_str (c : cell) : string :=
  match c with
  | CInt z => PyStr.of_Z z
  | CFloat x => PyStr.of_float x
  | CStr s => s
  | CBool b => if b then "True" else "False"
  | CNaN => "nan"
  end.

(** ** The types of the columns and the first row *)

(** The [dtype] of a column. *)
Inductive dtype : Type :=
| int64
| uint64
| float64
| bool_
| object_.

Definition is_int64 (c : cell) : bool :=
  match c with
  | CInt z => (- 2 ^ 63 <=? z)%Z && (z <? 2 ^ 63)%Z
  | _ => false
  end.

Definition is_uint64 (c : cell) : bool :=
  match c with
  | CInt z => (0 <=? z)%Z && (z <? 2 ^ 64)%Z
  | _ => false
  end.

Definition is_float (c : cell) : bool :=
  match c with
  | CFloat _ | CNaN => true
  | _ => false
  end.

Definition is_bool (c : cell) : bool :=
  match c with
  | CBool _ => true
  | _ => false
  end.

(** The type that a column has for what it holds: [int64] for integers
    that fit, [uint64] for integers from 0 that fit once the sign bit is
    used, [float64] for floats (a numeric column with a missing field is
    one), [bool] for truth values, [object] for everything else. *)
Definition column_dtype (column : list cell) : dtype :=
  if forallb is_int64 column then int64
  else if forallb is_uint64 column then uint64
  else if forallb is_float column then float64
  else if forallb is_bool column then bool_
  else object_.

Definition dtype_eqb (a b : dtype) : bool :=
  match a, b with
  | int64, int64 | uint64, uint64 | float64, float64
  | bool_, bool_ | object_, object_ => true
  | _, _ => false
  end.

Definition is_numeric (a : dtype) : bool :=
  match a with
  | int64 | uint64 | float64 => true
  | _ => false
  end.

(** The one type that [iloc[0]] gives to the values of a row: the type of
    the columns when they agree, [float64] for numeric columns that
    differ, [object] otherwise. *)
Definition common_dtype (a b c : dtype) : dtype :=
  if dtype_eqb a b && dtype_eqb b c then a
  else if is_numeric a && is_numeric b && is_numeric c then float64
  else object_.

(** The type of the rows of a frame. *)
Definition row_dtype (reads : list row) : dtype :=
  common_dtype (column_dtype (map chrom reads))
               (column_dtype (map start reads))
               (column_dtype (map end_ reads)).

(** The value of [start_cell] as lines 131-133 see it: an integer, a
    string, a truth value or a float.  Which float it is makes no
    difference there: a float prints with a point, with an exponent, or as
    [inf] or [nan], never as digits alone, and it equals no string. *)
Inductive scalar : Type :=
| SInt (z : Z)
| SFloat
| SStr (s : string)
| SBool (b : bool).

Definition scalar_of (c : cell) : scalar :=
  match c with
  | CInt z => SInt z
  | CFloat _ | CNaN => SFloat
  | CStr s => SStr s
  | CBool b => SBool b
  end.

(** [reads.iloc[0][1]]: in a row of type [float64] every value is a
    float, in any other row the values are those of the cells. *)
Definition start_cell (reads : list row) (first : row) : scalar :=
  match row_dtype reads with
  | float64 => SFloat
  | _ => scalar_of (start first)
  end.

(** [str(start_cell).isdigit()]. *)
Definition str_isdigit (v : scalar) : bool :=
  match v with
  | SInt z => PyStr.isdigit (PyStr.of_Z z)
  | SStr s => PyStr.isdigit s
  | SFloat | SBool _ => false
  end.

(** [Series.str.replace(old, new)] on one element. *)
Definition str_replace (old new : string) (c : cell) : cell :=
  match c with
  | CStr s => CStr (PyStr.replace old new s)
  | _ => CNaN
  end.

(** [start_cell in {'start', 'Start'}]. *)
Definition is_header_token (v : scalar) : bool :=
  match v with
  | SStr s => (s =? "start") || (s =? "Start")
  | _ => false
  end.

(** The rewriting of lines 158-159 on one chromosome name. *)
Definition canonical_chrom (s : string) : string :=
  PyStr.replace "chr" "" (PyStr.replace "chrM" "MT" s).

(** Lines 156-161: the whole [chrom] column is rewritten as soon as one of
    its names contains ["chr"]. *)
Definition canonicalize (reads : list row) : list row :=
  if existsb (fun r => PyStr.contains "chr" (astype_str (chrom r))) reads
  then map (fun r => mkRow (str_replace "chr" "" (str_replace "chrM" "MT" (chrom r)))
                           (start r) (end_ r)) reads
  else reads.

(** The [region] column of lines 165-166. *)
Definition region (r : row) : string :=
  astype_str (chrom r) ++ ":" ++ astype_str (start r) ++ ".." ++ astype_str (end_ r).

(** ** Grouping in fifties *)

(** [np.arange(n) // 50]. *)
Definition group_labels (n : nat) : list nat :=
  map (fun i => i / 50)%nat (seq 0 n).

(** The distinct labels in ascending order, as [groupby] visits them. *)
Definition distinct_labels (labels : list nat) : list nat :=
  filter (fun k => existsb (Nat.eqb k) labels) (seq 0 (S (list_max labels))).

(** The rows that carry label [k], in their order. *)
Definition select_label {A} (k : nat) (rows : list A) (labels : list nat) : list A :=
  map fst (filter (fun p => (snd p =? k)%nat) (combine rows labels)).

(** [frame.groupby(labels)], iterated. *)
Definition groupby {A} (rows : list A) (labels : list nat) : list (nat * list A) :=
  map (fun k => (k, select_label k rows labels)) (distinct_labels labels).

(** ** The dict of batches *)

(** A Python dict with string keys, in insertion order. *)
Definition dict (V : Type) : Type := list (string * V).

(** [d.update({k: v})]: an existing key keeps its place and takes the new
    value, a new key goes to the end. *)
Fixpoint dict_update {V} (k : string) (v : V) (d : dict V) : dict V :=
  match d with
  | [] => [(k, v)]
  | (k', v') :: d' =>
      if (k' =? k)%string then (k, v) :: d' else (k', v') :: dict_update k v d'
  end.

Definition dict_values {V} (d : dict V) : list V := map snd d.

(** [subreads.iloc[0]['region']].  A group of [groupby] is never empty
    ([groupby_nonempty] below), so the default is never used. *)
Definition first_region (batch : list string) : string :=
  match batch with
  | [] => EmptyString
  | r :: _ => r
  end.

(** The loop of lines 164-169 over the groups. *)
Definition batch_loop (groups : list (nat * list row)) (regions : dict (list string))
  : dict (list string) :=
  fold_left (fun regions g =>
               let batch := map region (snd g) in
               dict_update (first_region batch) batch regions)
            groups regions.

(** Lines 149-169 on the rows that are left after the header check. *)
Definition build_regions (reads : list row) : dict (list string) :=
  let reads := canonicalize reads in
  batch_loop (groupby reads (group_labels (List.length reads))) [].

(** ** The process: state, effects, exceptions *)

(** The decoded documents of the upstream contract: [{"species": [...]}],
    [{"coord_system_versions": [...]}] and the list of sequence records. *)
Record species : Type := mkSpecies { name : string; display_name : string }.

Record sequence : Type := mkSequence { rec_id : string; rec_seq : string }.

Inductive json_doc : Type :=
| Species (l : list species)
| CoordSystems (versions : list string)
| Sequences (l : list sequence).

(** The truth value of a decoded document: a dict with a key is true, a
    list is true when it is not empty. *)
Definition doc_truthy (d : json_doc) : bool :=
  match d with
  | Sequences [] => false
  | _ => true
  end.

(** The value of a query parameter. *)
Inductive param : Type :=
| PStr (s : string)
| PInt (z : Z).

Inductive http_request : Type :=
| GET (url : string) (headers : list (string * string))
| POST (url : string) (headers : list (string * string)) (data : string).

(** A response: its status, the time the round trip took, and its body
    decoded, if it decodes. *)
Record http_response : Type := mkResponse {
  status_code : Z;
  elapsed : Q;
  decoded : option json_doc
}.

Inductive destination : Type :=
| Stdout
| File (path : string).

Inductive event : Type :=
| Sleep (d : Q)
| Http (req : http_request) (resp : http_response)
| Open (path : string)
| Out (dest : destination) (text : string).

(** The exceptions that end a run; [Other] is an exception that the
    code does not raise itself and does not catch, by the name of its
    class. *)
Inductive exn : Type :=
| IndexError
| UnboundLocalError
| Other (class : string)
| KeyError (key : string)
| TypeError
| HTTPError (response : http_response)
| JSONDecodeError
| SystemExit (code : Z).

Inductive outcome (A : Type) : Type :=
| Return (a : A)
| Raise (e : exn).
Arguments Return {A} a.
Arguments Raise {A} e.

(** The attributes of [EnsemblRestClient]. *)
Record EnsemblRestClient : Type := mkClient {
  server : string;
  reqs_per_sec : Z;
  req_count : Z;
  last_req : Q
}.

(** [EnsemblRestClient.__init__]. *)
Definition init (server : string) (reqs_per_sec : Z) : EnsemblRestClient :=
  mkClient server reqs_per_sec 0 0.

(** [EnsemblRestClient()] with the defaults of [__init__]. *)
Definition default_client : EnsemblRestClient :=
  init "https://rest.ensembl.org" 15.

Record state : Type := mkState {
  self : EnsemblRestClient;
  clock : Q;
  trace : list event
}.

Definition M (A : Type) : Type := state -> outcome A * state.

Definition ret {A} (a : A) : M A := fun s => (Return a, s).

Definition raise {A} (e : exn) : M A := fun s => (Raise e, s).

Definition bind {A B} (c : M A) (k : A -> M B) : M B :=
  fun s =>
    match c s with
    | (Return a, s') => k a s'
    | (Raise e, s') => (Raise e, s')
    end.

Declare Scope py_scope.
Delimit Scope py_scope with py.
Notation "x <- c ;; k" := (bind c (fun x => k))
  (at level 61, c at next level, right associativity) : py_scope.
Notation "c ;; k" := (bind c (fun _ => k))
  (at level 61, right associativity) : py_scope.
Local Open Scope py_scope.

Definition get_self : M EnsemblRestClient := fun s => (Return (self s), s).

Definition set_self (c : EnsemblRestClient) : M unit :=
  fun s => (Return tt, mkState c (clock s) (trace s)).

Definition set_req_count (n : Z) : M unit :=
  c <- get_self ;; set_self (mkClient (server c) (reqs_per_sec c) n (last_req c)).

Definition set_last_req (t : Q) : M unit :=
  c <- get_self ;; set_self (mkClient (server c) (reqs_per_sec c) (req_count c) t).

(** [time.time()]. *)
Definition time_time : M Q := fun s => (Return (clock s), s).

(** [time.sleep(d)], called with a positive [d] only. *)
Definition time_sleep (d : Q) : M unit :=
  fun s => (Return tt, mkState (self s) (clock s + d)%Q (trace s ++ [Sleep d])).

Definition emit (e : event) : M unit :=
  fun s => (Return tt, mkState (self s) (clock s) (trace s ++ [e])).

(** [print(text)]. *)
Definition print (text : string) : M unit :=
  emit (Out Stdout (text ++ PyStr.newline)).

(** [sys.exit(code)]. *)
Definition sys_exit {A} (code : Z) : M A := raise (SystemExit code).

(** A [for] loop with a body in [M]. *)
Fixpoint for_each {A} (l : list A) (body : A -> M unit) : M unit :=
  match l with
  | [] => ret tt
  | x :: l' => body x ;; for_each l' body
  end.

Definition Qlt_bool (x y : Q) : bool := negb (Qle_bool y x).

(** [response.ok]: [raise_for_status] does not raise. *)
Definition ok (r : http_response) : bool :=
  negb ((400 <=? status_code r)%Z && (status_code r <? 600)%Z).

(** [response.raise_for_status()]. *)
Definition raise_for_status (r : http_response) : M unit :=
  if ((400 <=? status_code r)%Z && (status_code r <? 600)%Z)
  then raise (HTTPError r)
  else ret tt.

(** [response.json()]. *)
Definition json (r : http_response) : M json_doc :=
  match decoded r with
  | Some d => ret d
  | None => raise JSONDecodeError
  end.

(** [sorted(l, key=...)] with string keys: a stable sort, written as the
    insertion sort that keeps equal keys in their order. *)
Fixpoint insert_sorted {A} (key : A -> string) (x : A) (l : list A) : list A :=
  match l with
  | [] => [x]
  | y :: l' =>
      if (key x <=? key y)%string then x :: y :: l'
      else y :: insert_sorted key x l'
  end.

Definition sorted {A} (key : A -> string) (l : list A) : list A :=
  fold_right (insert_sorted key) [] l.

(** ** The client *)

Section Client.

Local Open Scope string_scope.

(** [urllib.parse.urlencode] and [json.dumps]. *)
Variable urlencode : dict param -> string.
Variable json_dumps : dict (list string) -> string.

(** The remote service: what it answers to a request, given everything
    that happened before. *)
Variable ensembl : list event -> http_request -> http_response.

(** [requests.get] and [requests.post].  Every request comes back with a
    response; a connection that fails is outside the model. *)
Definition send (req : http_request) : M http_response :=
  fun s =>
    let r := ensembl (trace s) req in
    (Return r, mkState (self s) (clock s + elapsed r)%Q (trace s ++ [Http req r])).

(** Lines 31-36 of [perform_rest_action]: the rate limit. *)
Definition rate_limit : M unit :=
  c <- get_self ;;
  if (req_count c >=? reqs_per_sec c)%Z then
    now <- time_time ;;
    let delta := (now - last_req c)%Q in
    (if Qlt_bool delta 1 then time_sleep (1 - delta)%Q else ret tt) ;;
    now' <- time_time ;;
    set_last_req now' ;;
    set_req_count 0
  else ret tt.

Definition perform_rest_action (endpoint : string) (hdrs : list (string * string))
    (params : dict param) (regions : option (dict (list string))) : M json_doc :=
  let endpoint :=
    match params with
    | _ :: _ => endpoint ++ "?" ++ urlencode params
    | [] => endpoint ++ "?"
    end in
  rate_limit ;;
  c <- get_self ;;
  request <- match regions with
             | Some ((_ :: _) as body) =>
                 send (POST (server c ++ endpoint) hdrs (json_dumps body))
             | _ => send (GET (server c ++ endpoint) hdrs)
             end ;;
  (if negb (ok request)
   then raise_for_status request ;; sys_exit 0
   else ret tt) ;;
  data <- json request ;;
  c <- get_self ;;
  set_req_count (req_count c + 1) ;;
  ret data.

Definition genome_line (i : species) : string :=
  PyStr.ljust 40 (name i) ++ " " ++ display_name i.

Definition get_genomes : M unit :=
  let hdrs := [("Content-Type", "application/json")] in
  let params := [] in
  let endpoint := "/info/species" in
  releases <- perform_rest_action endpoint hdrs params None ;;
  if doc_truthy releases then
    match releases with
    | Species l =>
        let sorted_releases := sorted name l in
        print (PyStr.ljust 40 "Name" ++ " " ++ "Display name") ;;
        print (PyStr.repeat_char "-" 30 ++ " " ++ PyStr.repeat_char " " 9
                 ++ " " ++ PyStr.repeat_char "-" 30) ;;
        for_each sorted_releases (fun i => print (genome_line i))
    | CoordSystems _ => raise (KeyError "species")
    | Sequences _ => raise TypeError
    end
  else ret tt.

Definition get_assemblies (species : string) : M unit :=
  let hdrs := [("Content-Type", "application/json")] in
  let params := [] in
  let endpoint := "/info/assembly/" ++ species in
  genomes <- perform_rest_action endpoint hdrs params None ;;
  if doc_truthy genomes then
    match genomes with
    | CoordSystems genomes_list => for_each genomes_list print
    | Species _ => raise (KeyError "coord_system_versions")
    | Sequences _ => raise TypeError
    end
  else ret tt.

Definition get_sequences (species assembly : string) (regions : dict (list string))
    (upstream downstream : Z) : M json_doc :=
  let hdrs := [("Content-Type", "application/json"); ("Accept", "application/json")] in
  let params := [("coord_system_version", PStr assembly);
                 ("expand_3prime", PInt downstream);
                 ("expand_5prime", PInt upstream)] in
  let endpoint := "/sequence/region/" ++ species in
  perform_rest_action endpoint hdrs params (Some regions).

(** An element of the list [sequences]: a record of the server, or a key
    of a dict that [extend] was given instead of a list. *)
Inductive item : Type :=
| Rec (r : sequence)
| Key (k : string).

(** What [sequences.extend(doc)] appends. *)
Definition items_of (d : json_doc) : list item :=
  match d with
  | Sequences l => map Rec l
  | Species _ => [Key "species"]
  | CoordSystems _ => [Key "coord_system_versions"]
  end.

(** The loop of [submit_regions] over [regions.items()]. *)
Fixpoint submit_loop (species assembly : string) (items : dict (list string))
    (upstream downstream : Z) (sequences : list item) : M (list item) :=
  match items with
  | [] => ret sequences
  | (key, value) :: items' =>
      sub_sequences <- get_sequences species assembly [("regions", value)]
                                     upstream downstream ;;
      submit_loop species assembly items' upstream downstream
                  (sequences ++ items_of sub_sequences)%list
  end.

Definition submit_regions (species assembly : string) (regions : dict (list string))
    (upstream downstream : Z) : M (list item) :=
  submit_loop species assembly regions upstream downstream [].

(** The [try] block of [get_regions] with its handler: the rows that are
    bound to [reads] afterwards, [None] when the name is left unbound.  An
    exception of [read_csv] that is no [ValueError] passes through. *)
Definition read_and_check (csv : csv_result) : M (option (list row)) :=
  match csv with
  | ReadValueError msg =>
      if PyStr.contains "Usecols do not match columns" msg then
        print (PyStr.newline
                 ++ " Error: Please check the indentation of the columns in input bed file") ;;
        sys_exit 1
      else ret None
  | ReadRaises class => raise (Other class)
  | Frame reads =>
      match reads with
      | [] => raise IndexError
      | first :: rest =>
          let start_cell := start_cell reads first in
          if str_isdigit start_cell then ret (Some reads)
          else if is_header_token start_cell then ret (Some rest)
          else sys_exit 1
      end
  end.

Definition get_regions (csv : csv_result) : M (dict (list string)) :=
  bound <- read_and_check csv ;;
  match bound with
  | None => raise UnboundLocalError
  | Some reads =>
      let regions := build_regions reads in
      let regions_list := dict_values regions in
      match regions_list with
      | [] => raise IndexError
      | _ :: _ => ret regions
      end
  end.

(** The command-line arguments of [sequences]. *)
Record arguments : Type := mkArgs {
  arg_species : string;
  arg_assembly : string;
  arg_bed : option string;
  arg_output : option string;
  arg_log : string;
  arg_upstream : Z;
  arg_downstream : Z
}.

(** The [format] call that fills [id] and [seq] in after [>], the two
    separated by a line break; it needs a mapping. *)
Definition format_record (x : item) : M string :=
  match x with
  | Rec r => ret (">" ++ rec_id r ++ PyStr.newline ++ rec_seq r)
  | Key _ => raise TypeError
  end.

(** [retrieve_seq]; [csv] is what [read_csv] makes of [args.bed], or of
    the standard input when there is none. *)
Definition retrieve_seq (args : arguments) (csv : csv_result) : M unit :=
  set_self default_client ;;
  regions <- get_regions csv ;;
  sequences <- submit_regions (arg_species args) (arg_assembly args) regions
                              (arg_upstream args) (arg_downstream args) ;;
  match sequences with
  | _ :: _ =>
      match arg_output args with
      | Some ((String _ _) as path) =>
          emit (Open path) ;;
          for_each sequences (fun sequence =>
            text <- format_record sequence ;;
            emit (Out (File path) (text ++ PyStr.newline)))
      | _ =>
          for_each sequences (fun sequence =>
            text <- format_record sequence ;;
            emit (Out Stdout (text ++ PyStr.newline)))
      end
  | [] => ret tt
  end.

Definition retrieve_genomes : M unit :=
  set_self default_client ;;
  print (PyStr.newline ++ " Retrieving a list of available genomes ... " ++ PyStr.newline) ;;
  get_genomes.

(** [print(a, b, c)] separates its arguments by a space. *)
Definition retrieve_assemblies (species : string) : M unit :=
  set_self default_client ;;
  print (PyStr.newline ++ " Retrieving a list of available assemblies for  "
           ++ species ++ " " ++ PyStr.newline) ;;
  get_assemblies species.

End Client.

(** ** The specification's readings

    Definitions that follow the words of the specification where they differ
    from the code; each is compared with its counterpart above. *)

Module Spec.

(** Lower case, on the ASCII letters. *)
Definition lower_char (c : ascii) : ascii :=
  let n := nat_of_ascii c in
  if ((65 <=? n) && (n <=? 90))%nat then ascii_of_nat (n + 32) else c.

Fixpoint lower (s : string) : string :=
  match s with
  | EmptyString => EmptyString
  | String c s' => String (lower_char c) (lower s')
  end.

(** "matches a case-insensitive header token [start]". *)
Definition header_token (c : cell) : bool :=
  match c with
  | CStr s => (lower s =? "start")%string
  | _ => false
  end.

(** "any [chr] prefix stripped and the literal value [chrM] rewritten to
    [MT]". *)
Definition canonical_chrom (s : string) : string :=
  if (s =? "chrM")%string then "MT"
  else if prefix "chr" s then substring 3 (String.length s - 3) s
  else s.

(** [ceil(n / 50)]. *)
Definition batch_count (n : nat) : nat := ((n + 49) / 50)%nat.

End Spec.

(** The state in which a command starts: a fresh client, the clock at its
    origin, nothing done yet. *)
Definition start_state : state := mkState default_client 0 [].

(** The header line of a BED file, read as a row. *)
Definition header_row (start_title : string) : row :=
  mkRow (CStr "chrom") (CStr start_title) (CStr "end").

(** The batches in the order in which the loop of lines 164-169 meets
    them, before they are stored under their keys. *)
Definition batches_of (reads : list row) : list (list string) :=
  map (fun g => map region (snd g)) (groupby reads (group_labels (List.length reads))).

(** The effects that show to the user: a file opened for writing, a text
    written. *)
Definition is_output (e : event) : bool :=
  match e with
  | Open _ | Out _ _ => true
  | _ => false
  end.

Definition is_sleep (e : event) : bool :=
  match e with
  | Sleep _ => true
  | _ => false
  end.

Definition is_http (e : event) : bool :=
  match e with
  | Http _ _ => true
  | _ => false
  end.

(** ** Reading a trace *)

(** The requests of a trace, in the order in which they were sent. *)
Definition requests_of (evs : list event) : list http_request :=
  flat_map (fun e => match e with Http req _ => [req] | _ => [] end) evs.

(** The sequence records that a decoded document holds. *)
Definition records_of (d : json_doc) : list sequence :=
  match d with
  | Sequences l => l
  | _ => []
  end.

(** What [sequences.extend] appended over a trace: the elements of every
    document that was decoded. *)
Definition items_received (evs : list event) : list item :=
  flat_map (fun e => match e with
                     | Http _ resp =>
                         match decoded resp with
                         | Some d => items_of d
                         | None => []
                         end
                     | _ => []
                     end) evs.

(** The sequence records received over a trace, in the order of arrival. *)
Definition received (evs : list event) : list sequence :=
  flat_map (fun e => match e with
                     | Http _ resp =>
                         match decoded resp with
                         | Some d => records_of d
                         | None => []
                         end
                     | _ => []
                     end) evs.

(** What a trace shows to the user. *)
Definition outputs (evs : list event) : list event := filter is_output evs.

(** Where [retrieve_seq] writes: the file of [--output], the standard
    output without it. *)
Definition destination_of (args : arguments) : destination :=
  match arg_output args with
  | Some ((String _ _) as path) => File path
  | _ => Stdout
  end.

(** The two lines written for a record. *)
Definition record_text (r : sequence) : string :=
  ((">" ++ rec_id r ++ PyStr.newline ++ rec_seq r) ++ PyStr.newline)%string.

(** The line of the catalogue for a genome: the name, spaces up to a
    width of 40 (none after a longer name), a space, the display name. *)
Definition table_line (name display_name : string) : string :=
  (name ++ PyStr.repeat_char " " (40 - String.length name) ++ " " ++ display_name
     ++ PyStr.newline)%string.

(** ** A small environment for the worked examples *)

Module Example.

(** Stand-ins for the encoders: the keys of the query, and the keys of
    the body with the first element under each. *)
Definition urlencode (params : dict param) : string :=
  String.concat "&" (map fst params).

Definition json_dumps (body : dict (list string)) : string :=
  String.concat "," (map (fun kv => (fst kv ++ "=" ++ first_region (snd kv))%string) body).

Definition record : sequence := mkSequence "chromosome:GRCh37:1:1:4:1" "ACGT".

(** A server that answers every request with one sequence record. *)
Definition healthy : list event -> http_request -> http_response :=
  fun _ _ => mkResponse 200 (1 # 10) (Some (Sequences [record])).

(** A server that fails with status 500 on the second request it gets. *)
Definition failing_second : list event -> http_request -> http_response :=
  fun t _ =>
    if (List.length (filter is_http t) =? 1)%nat
    then mkResponse 500 (1 # 10) None
    else mkResponse 200 (1 # 10) (Some (Sequences [record])).

(** A server that answers the second request it gets with status 300 and
    a body that decodes. *)
Definition choices_second : list event -> http_request -> http_response :=
  fun t _ =>
    if (List.length (filter is_http t) =? 1)%nat
    then mkResponse 300 (1 # 10) (Some (Sequences [record]))
    else mkResponse 200 (1 # 10) (Some (Sequences [record])).

(** A server that lists two genomes. *)
Definition catalogue : list event -> http_request -> http_response :=
  fun _ _ => mkResponse 200 (1 # 10)
               (Some (Species [mkSpecies "zebra" "Zebra"; mkSpecies "ant" "Ant"])).

(** The arguments of [getseq sequences human GRCh37 -b regions.bed]. *)
Definition args : arguments :=
  mkArgs "human" "GRCh37" (Some "regions.bed") None "getseq.log" 0 0.

(** [n] rows on chromosome 1, all different. *)
Definition rows (n : nat) : list row :=
  map (fun i => mkRow (CStr "chr1") (CInt (Z.of_nat i)) (CInt (Z.of_nat i + 10)))
      (seq 0 n).

(** A server that lists two assemblies. *)
Definition assemblies : list event -> http_request -> http_response :=
  fun _ _ => mkResponse 200 (1 # 10) (Some (CoordSystems ["GRCh38"; "GRCh37"])).

(** A server that is out of order. *)
Definition unavailable : list event -> http_request -> http_response :=
  fun _ _ => mkResponse 503 (1 # 10) None.

(** A server whose answers do not decode. *)
Definition garbled : list event -> http_request -> http_response :=
  fun _ _ => mkResponse 200 (1 # 10) None.

(** A server that answers within a hundredth of a second. *)
Definition fast : list event -> http_request -> http_response :=
  fun _ _ => mkResponse 200 (1 # 100) (Some (Sequences [record])).

(** A command that starts at some time of day, with a fresh client. *)
Definition at_noon : state := mkState default_client 1700000000 [].

(** One [Content-Type] header, as [get_genomes] sends it. *)
Definition headers : list (string * string) := [("Content-Type", "application/json")].

End Example.

(** * Properties *)

(** ** Strings *)

Lemma string_length_app (s t : string) :
  String.length (s ++ t) = (String.length s + String.length t)%nat.
Proof.
  induction s as [|c s IH]; simpl; [reflexivity | now rewrite IH].
Qed.

Lemma prefix_app_l (p q s : string) :
  prefix (p ++ q) s = true -> prefix p s = true.
Proof.
  revert s; induction p as [|a p IH]; intros s H.
  - now destruct s.
  - destruct s as [|b s]; simpl in *; [discriminate|].
    destruct (ascii_dec a b); [now apply IH | discriminate].
Qed.

Lemma prefix_length (p s : string) :
  prefix p s = true -> (String.length p <= String.length s)%nat.
Proof.
  revert s; induction p as [|a p IH]; intros s H; simpl; [lia|].
  destruct s as [|b s]; simpl in *; [discriminate|].
  destruct (ascii_dec a b); [apply IH in H; lia | discriminate].
Qed.

Lemma contains_app_l (p q s : string) :
  PyStr.contains p s = false -> PyStr.contains (p ++ q) s = false.
Proof.
  induction s as [|c s IH]; cbn [PyStr.contains]; intros H.
  - destruct p; [discriminate | reflexivity].
  - apply orb_false_iff in H as [Hp Hc].
    apply orb_false_iff; split; [|now apply IH].
    destruct (prefix (p ++ q) (String c s)) eqn:E; [|reflexivity].
    apply prefix_app_l in E; congruence.
Qed.

(** Where [old] does not occur, [replace] changes nothing. *)
Lemma replace_absent (old new s : string) :
  PyStr.contains old s = false -> PyStr.replace old new s = s.
Proof.
  unfold PyStr.replace.
  induction s as [|c s IH]; cbn [PyStr.contains PyStr.replace_from]; intros H;
    [reflexivity|].
  apply orb_false_iff in H as [Hp Hc].
  rewrite Hp. now rewrite IH.
Qed.

Section ReplaceLength.

Variables old new : string.
Hypothesis old_nonempty : (1 <= String.length old)%nat.
Hypothesis new_shorter : (String.length new <= String.length old)%nat.

Lemma replace_from_length (s : string) :
  forall skip, (skip <= String.length s)%nat ->
    (String.length (PyStr.replace_from old new skip s) + skip <= String.length s)%nat.
Proof.
  induction s as [|c s IH]; intros skip Hk;
    cbn [PyStr.replace_from String.length] in *; [lia|].
  destruct skip as [|k].
  - destruct (prefix old (String c s)) eqn:E.
    + apply prefix_length in E; cbn [String.length] in E.
      rewrite string_length_app.
      specialize (IH (String.length old - 1)%nat); lia.
    + cbn [String.length]. specialize (IH 0%nat); lia.
  - specialize (IH k); lia.
Qed.

Lemma replace_length (s : string) :
  (String.length (PyStr.replace old new s) <= String.length s)%nat.
Proof.
  unfold PyStr.replace.
  pose proof (replace_from_length s 0); lia.
Qed.

(** An occurrence is replaced: with a strictly shorter [new] the string
    gets shorter. *)
Lemma replace_present_shorter (s : string) :
  (String.length new < String.length old)%nat ->
  PyStr.contains old s = true ->
  (String.length (PyStr.replace old new s) < String.length s)%nat.
Proof.
  intros Hlt. unfold PyStr.replace.
  induction s as [|c s IH];
    cbn [PyStr.contains PyStr.replace_from String.length]; intros H.
  - destruct old; cbn in *; [lia | discriminate].
  - destruct (prefix old (String c s)) eqn:E.
    + apply prefix_length in E; cbn [String.length] in E.
      rewrite string_length_app.
      pose proof (replace_from_length s (String.length old - 1)); lia.
    + cbn [orb] in H. cbn [String.length]. apply IH in H. lia.
Qed.

End ReplaceLength.

(** ** Chromosome names *)

Lemma canonical_chrom_fixed (t : string) :
  PyStr.contains "chr" t = false -> canonical_chrom t = t.
Proof.
  intros H. unfold canonical_chrom.
  rewrite (replace_absent "chrM" "MT" t).
  - now apply replace_absent.
  - change "chrM" with ("chr" ++ "M")%string. now apply contains_app_l.
Qed.

Lemma canonical_chrom_shrinks (t : string) :
  PyStr.contains "chr" t = true ->
  (String.length (canonical_chrom t) < String.length t)%nat.
Proof.
  intros H. unfold canonical_chrom.
  assert (L1 : (String.length (PyStr.replace "chr" "" (PyStr.replace "chrM" "MT" t))
                <= String.length (PyStr.replace "chrM" "MT" t))%nat)
    by (apply replace_length; cbn; lia).
  destruct (PyStr.contains "chrM" t) eqn:E.
  - assert (L2 : (String.length (PyStr.replace "chrM" "MT" t) < String.length t)%nat)
      by (apply replace_present_shorter; cbn; auto; lia).
    lia.
  - rewrite (replace_absent "chrM" "MT" t E).
    apply replace_present_shorter; cbn; auto; lia.
Qed.

(** A second pass changes nothing exactly when the first has left no
    ["chr"]. *)
Lemma canonical_chrom_idempotent_iff (s : string) :
  canonical_chrom (canonical_chrom s) = canonical_chrom s
  <-> PyStr.contains "chr" (canonical_chrom s) = false.
Proof.
  split.
  - intros Heq.
    destruct (PyStr.contains "chr" (canonical_chrom s)) eqn:E; [|reflexivity].
    apply canonical_chrom_shrinks in E. rewrite Heq in E. lia.
  - apply canonical_chrom_fixed.
Qed.

Lemma replace_from_match (old new : string) (c : ascii) (s : string) :
  prefix old (String c s) = true ->
  PyStr.replace_from old new 0 (String c s)
  = (new ++ PyStr.replace_from old new (String.length old - 1) s)%string.
Proof.
  intros H. cbn [PyStr.replace_from]. now rewrite H.
Qed.

Lemma prefix_same_head (a : ascii) (p s : string) :
  prefix (String a p) (String a s) = prefix p s.
Proof.
  cbn [prefix]. destruct (ascii_dec a a); congruence.
Qed.

Lemma substring_all (t : string) : substring 0 (String.length t) t = t.
Proof.
  induction t as [|c t IH]; cbn; [reflexivity | now rewrite IH].
Qed.

(** A letter that begins neither ["chrM"] nor ["chr"] stays where it is. *)
Lemma canonical_chrom_T (v : string) :
  canonical_chrom (String "T" v) = String "T" (canonical_chrom v).
Proof. reflexivity. Qed.

Lemma canonical_chrom_chrM (u : string) :
  canonical_chrom ("chrM" ++ u) = ("MT" ++ canonical_chrom u)%string.
Proof. destruct u; reflexivity. Qed.

Lemma replace_from_pass (old new : string) (c : ascii) (s : string) :
  prefix old (String c s) = false ->
  PyStr.replace_from old new 0 (String c s) = String c (PyStr.replace_from old new 0 s).
Proof.
  intros H. cbn [PyStr.replace_from]. now rewrite H.
Qed.

Lemma canonical_chrom_chr (t : string) :
  prefix "M" t = false -> canonical_chrom ("chr" ++ t) = canonical_chrom t.
Proof.
  intros HM. unfold canonical_chrom, PyStr.replace. cbn [append].
  rewrite (replace_from_pass "chrM" "MT" "c")
    by (rewrite !prefix_same_head; exact HM).
  rewrite (replace_from_pass "chrM" "MT" "h") by reflexivity.
  rewrite (replace_from_pass "chrM" "MT" "r") by reflexivity.
  rewrite replace_from_match
    by (rewrite !prefix_same_head;
        now destruct (PyStr.replace_from "chrM" "MT" 0 t)).
  reflexivity.
Qed.

Lemma no_T_fixed (n : nat) :
  forall u, (String.length u <= n)%nat -> u <> String "T" (canonical_chrom u).
Proof.
  induction n as [|n IH]; intros [|c v] L E; try discriminate.
  - cbn in L. lia.
  - injection E as -> E. rewrite canonical_chrom_T in E.
    apply (IH v); [cbn in L; lia | exact E].
Qed.

(** Where the code does to a name what the comment at line 157 says, a
    second pass changes nothing. *)
Lemma agreement_is_idempotent (s : string) :
  canonical_chrom s = Spec.canonical_chrom s ->
  canonical_chrom (canonical_chrom s) = canonical_chrom s.
Proof.
  unfold Spec.canonical_chrom.
  destruct (String.eqb_spec s "chrM") as [->|_]; [reflexivity|].
  destruct (prefix "chr" s) eqn:P.
  - destruct s as [|a s]; [discriminate P|]. cbn [prefix] in P.
    destruct (ascii_dec "c" a) as [<-|]; [|discriminate].
    destruct s as [|b s]; [discriminate P|]. cbn [prefix] in P.
    destruct (ascii_dec "h" b) as [<-|]; [|discriminate].
    destruct s as [|c t]; [discriminate P|]. cbn [prefix] in P.
    destruct (ascii_dec "r" c) as [<-|]; [|discriminate].
    cbn [String.length Nat.sub substring]. rewrite Nat.sub_0_r, substring_all.
    change (String "c" (String "h" (String "r" t))) with ("chr" ++ t)%string.
    intros H. destruct (prefix "M" t) eqn:PM.
    + exfalso. destruct t as [|m u]; [discriminate|].
      cbn [prefix] in PM. destruct (ascii_dec "M" m) as [<-|]; [|discriminate].
      change ("chr" ++ String "M" u)%string with ("chrM" ++ u)%string in H.
      rewrite canonical_chrom_chrM in H. injection H as H.
      now apply (no_T_fixed (String.length u) u (Nat.le_refl _)).
    + rewrite H. rewrite canonical_chrom_chr in H by exact PM. exact H.
  - intros H. now rewrite !H.
Qed.

(** C8 at the input that breaks it.  In ["cchrhr"] there is no prefix to
    strip, and under the comment at line 157 the name stays as it is, once
    and twice.  The code deletes the ["chr"] inside and leaves ["chr"],
    which a second pass deletes: a table with this name gets the region
    ["chr:100..200"], and the same table read with the name ["chr"] gets
    [":100..200"].  The names on which the code does what the comment says
    are not touched by a second pass, among them ["chr1"], which becomes
    ["1"] and stays ["1"], and ["chrM"], which becomes ["MT"] and stays
    ["MT"]. *)
Theorem inner_chr_breaks_idempotence :
  canonical_chrom "cchrhr" = "chr"
  /\ canonical_chrom (canonical_chrom "cchrhr") = ""
  /\ canonical_chrom (canonical_chrom "cchrhr") <> canonical_chrom "cchrhr"
  /\ Spec.canonical_chrom "cchrhr" = "cchrhr"
  /\ Spec.canonical_chrom (Spec.canonical_chrom "cchrhr") = Spec.canonical_chrom "cchrhr"
  /\ get_regions (Frame [mkRow (CStr "cchrhr") (CInt 100) (CInt 200)]) start_state
     = (Return [("chr:100..200", ["chr:100..200"])], start_state)
  /\ get_regions (Frame [mkRow (CStr "chr") (CInt 100) (CInt 200)]) start_state
     = (Return [(":100..200", [":100..200"])], start_state)
  /\ (forall s, canonical_chrom s = Spec.canonical_chrom s ->
                canonical_chrom (canonical_chrom s) = canonical_chrom s)
  /\ canonical_chrom "chr1" = "1" /\ canonical_chrom "1" = "1"
  /\ canonical_chrom "chrM" = "MT" /\ canonical_chrom "MT" = "MT".
Proof.
  split; [reflexivity|]. split; [reflexivity|].
  split; [cbv; discriminate|].
  split; [reflexivity|]. split; [reflexivity|].
  split; [reflexivity|]. split; [reflexivity|].
  split; [exact agreement_is_idempotent|].
  repeat split; reflexivity.
Qed.

(** X13.  On the names that occur in practice the code does what the
    comment at line 157 says: a name without ["chr"] is kept, ["chrM"] becomes ["MT"],
    and a name made of the prefix ["chr"] and a rest without ["chr"] that
    does not begin with ["M"] loses the prefix. *)
Lemma canonical_chrom_plain_names (t : string) :
  PyStr.contains "chr" t = false ->
  canonical_chrom t = Spec.canonical_chrom t
  /\ canonical_chrom "chrM" = Spec.canonical_chrom "chrM"
  /\ (prefix "M" t = false ->
      canonical_chrom ("chr" ++ t) = t /\ Spec.canonical_chrom ("chr" ++ t) = t).
Proof.
  intros H. split; [|split; [reflexivity|]].
  - rewrite (canonical_chrom_fixed t H). unfold Spec.canonical_chrom.
    assert (P : prefix "chr" t = false).
    { destruct t as [|c t]; [reflexivity|].
      cbn [PyStr.contains] in H. now apply orb_false_iff in H. }
    rewrite P.
    destruct (String.eqb_spec t "chrM") as [->|_]; [discriminate | reflexivity].
  - intros HM.
    assert (HchrM : PyStr.contains "chrM" t = false).
    { change "chrM" with ("chr" ++ "M")%string. now apply contains_app_l. }
    split.
    + unfold canonical_chrom.
      rewrite (replace_absent "chrM" "MT").
      * assert (P : prefix "chr" ("chr" ++ t) = true).
        { cbn [append]. rewrite !prefix_same_head. now destruct t. }
        unfold PyStr.replace. cbn [append] in *.
        rewrite replace_from_match by exact P.
        change (PyStr.replace_from "chr" "" (String.length "chr" - 1)
                  (String "h" (String "r" t)))
          with (PyStr.replace_from "chr" "" 0 t).
        now apply replace_absent.
      * cbn [append PyStr.contains]. rewrite !prefix_same_head, HM, HchrM.
        destruct t as [|c t]; reflexivity.
    + assert (P : prefix "chr" ("chr" ++ t) = true).
      { cbn [append]. rewrite !prefix_same_head. now destruct t. }
      unfold Spec.canonical_chrom. rewrite P.
      destruct (String.eqb_spec ("chr" ++ t) "chrM") as [E|_].
      * injection E as ->. discriminate.
      * cbn [append String.length Nat.sub substring].
        now rewrite Nat.sub_0_r, substring_all.
Qed.

(** X14.  On a column of strings, lines 156-161 rewrite every name by
    [canonical_chrom], whether or not the test of line 156 holds: the test
    spares the work and changes no result. *)
Lemma canonicalize_strings (reads : list row) :
  Forall (fun r => exists s, chrom r = CStr s) reads ->
  canonicalize reads
  = map (fun r => mkRow (CStr (canonical_chrom (astype_str (chrom r))))
                        (start r) (end_ r)) reads.
Proof.
  intros F. unfold canonicalize.
  destruct (existsb _ reads) eqn:E.
  - apply map_ext_in. intros r Hr.
    rewrite Forall_forall in F. destruct (F r Hr) as [s ->]. reflexivity.
  - rewrite <- (map_id reads) at 1. apply map_ext_in. intros r Hr.
    rewrite Forall_forall in F. destruct (F r Hr) as [s Hs].
    assert (C : PyStr.contains "chr" (astype_str (chrom r)) = false).
    { destruct (PyStr.contains "chr" (astype_str (chrom r))) eqn:C; [|reflexivity].
      assert (X : existsb (fun r => PyStr.contains "chr" (astype_str (chrom r))) reads
                  = true) by (apply existsb_exists; eauto).
      congruence. }
    rewrite (canonical_chrom_fixed _ C). destruct r as [c st en].
    cbn in *. now subst c.
Qed.

(** ** The header check *)

Lemma all_digits_app (s t : string) :
  PyStr.all_digits (s ++ t) = PyStr.all_digits s && PyStr.all_digits t.
Proof.
  induction s as [|c s IH]; cbn [append PyStr.all_digits]; [reflexivity|].
  now rewrite IH, andb_assoc.
Qed.

Lemma isdigit_all_digits (s : string) :
  PyStr.all_digits s = false -> PyStr.isdigit s = false.
Proof. destruct s; [reflexivity | exact (fun H => H)]. Qed.

(** No float prints as digits alone. *)
Lemma of_float_not_digits (x : PyStr.float) : PyStr.isdigit (PyStr.of_float x) = false.
Proof.
  destruct x as [negative | negative digits exponent].
  - now destruct negative.
  - unfold PyStr.of_float.
    destruct (PyStr.strip_zeros _ digits exponent) as [d e].
    apply isdigit_all_digits. rewrite all_digits_app.
    apply andb_false_iff. right.
    destruct ((-4 <? _) && _)%Z.
    + destruct (_ <=? 0)%Z; [reflexivity|].
      destruct (_ <=? _)%Z; rewrite !all_digits_app; cbn [PyStr.all_digits];
        now rewrite ?andb_false_r.
    + rewrite !all_digits_app.
      replace (PyStr.all_digits "e") with false by reflexivity.
      now rewrite ?andb_false_r.
Qed.

(** What lines 131-133 see of a cell that is read as it is. *)
Lemma scalar_of_isdigit (c : cell) :
  str_isdigit (scalar_of c) = PyStr.isdigit (astype_str c).
Proof.
  destruct c as [z|x|t|[|]|]; try reflexivity.
  cbn. symmetry. apply of_float_not_digits.
Qed.

Lemma scalar_of_token (c : cell) :
  is_header_token (scalar_of c) = true <-> c = CStr "start" \/ c = CStr "Start".
Proof.
  destruct c as [z|x|t|b|]; cbn;
    try (split; [discriminate | intros [H|H]; discriminate]).
  rewrite orb_true_iff, !String.eqb_eq.
  split; intros [H|H]; ((left; congruence) || (right; congruence)).
Qed.

(** A row is read as floats only where all three columns are numeric. *)
Lemma row_dtype_float64 (reads : list row) :
  row_dtype reads = float64 ->
  is_numeric (column_dtype (map chrom reads)) = true
  /\ is_numeric (column_dtype (map start reads)) = true
  /\ is_numeric (column_dtype (map end_ reads)) = true.
Proof.
  unfold row_dtype, common_dtype.
  destruct (column_dtype (map chrom reads)), (column_dtype (map start reads)),
    (column_dtype (map end_ reads)); cbn; intros H; try discriminate; auto.
Qed.

Lemma column_with_string (t : string) (column : list cell) :
  In (CStr t) column -> column_dtype column = object_.
Proof.
  intros H. unfold column_dtype.
  assert (N : forall f : cell -> bool, f (CStr t) = false -> forallb f column = false).
  { intros f Hf. destruct (forallb f column) eqn:E; [|reflexivity].
    rewrite forallb_forall in E. rewrite (E _ H) in Hf. discriminate. }
  now rewrite !N.
Qed.

Lemma start_cell_as_is (reads : list row) (first : row) :
  row_dtype reads <> float64 -> start_cell reads first = scalar_of (start first).
Proof.
  unfold start_cell. destruct (row_dtype reads); congruence.
Qed.

Lemma read_and_check_frame (first : row) (rest : list row) (s : state) :
  read_and_check (Frame (first :: rest)) s
  = (if str_isdigit (start_cell (first :: rest) first)
     then Return (Some (first :: rest))
     else if is_header_token (start_cell (first :: rest) first)
          then Return (Some rest)
          else Raise (SystemExit 1), s).
Proof.
  unfold read_and_check. cbv zeta.
  destruct (str_isdigit _); [reflexivity|].
  destruct (is_header_token _); reflexivity.
Qed.

(** C3, as the code has it.  When the [start] field of the first row is
    made of digits, and the row is not read as floats, the row is kept;
    when the field is exactly ["start"] or ["Start"] the row is dropped and
    the regions are built from the rows after it; for every other value
    the process exits with status 1, before any request is sent or
    anything is written.  A row is not read as floats when one of its
    columns holds text, as the column of a table with chromosome names or
    with a header line does. *)
Theorem header_row_handling (first : row) (rest : list row) (s : state) :
  (row_dtype (first :: rest) <> float64 ->
   PyStr.isdigit (astype_str (start first)) = true ->
     read_and_check (Frame (first :: rest)) s = (Return (Some (first :: rest)), s))
  /\ (start first = CStr "start" \/ start first = CStr "Start" ->
     read_and_check (Frame (first :: rest)) s = (Return (Some rest), s)
     /\ get_regions (Frame (first :: rest)) s =
        (match build_regions rest with
         | [] => Raise IndexError
         | _ :: _ => Return (build_regions rest)
         end, s))
  /\ (PyStr.isdigit (astype_str (start first)) = false ->
      start first <> CStr "start" -> start first <> CStr "Start" ->
      get_regions (Frame (first :: rest)) s = (Raise (SystemExit 1), s)
      /\ forall urlencode json_dumps ensembl args,
           retrieve_seq urlencode json_dumps ensembl args (Frame (first :: rest)) s =
           (Raise (SystemExit 1), mkState default_client (clock s) (trace s)))
  /\ (forall r t, In r (first :: rest) ->
        chrom r = CStr t \/ start r = CStr t \/ end_ r = CStr t ->
        row_dtype (first :: rest) <> float64).
Proof.
  assert (Text : forall r t, In r (first :: rest) ->
            chrom r = CStr t \/ start r = CStr t \/ end_ r = CStr t ->
            row_dtype (first :: rest) <> float64).
  { intros r t Hin Ht F. apply row_dtype_float64 in F as (F1 & F2 & F3).
    destruct Ht as [Ht|[Ht|Ht]].
    - rewrite (column_with_string t) in F1; [discriminate|].
      rewrite <- Ht. now apply in_map.
    - rewrite (column_with_string t) in F2; [discriminate|].
      rewrite <- Ht. now apply in_map.
    - rewrite (column_with_string t) in F3; [discriminate|].
      rewrite <- Ht. now apply in_map. }
  split; [|split; [|split; [|exact Text]]].
  - intros Hrow H. rewrite read_and_check_frame, (start_cell_as_is _ _ Hrow).
    now rewrite scalar_of_isdigit, H.
  - intros H.
    assert (Hrow : row_dtype (first :: rest) <> float64).
    { destruct H as [H|H];
        [apply (Text first "start" (or_introl eq_refl))
        | apply (Text first "Start" (or_introl eq_refl))];
        right; left; exact H. }
    assert (R : read_and_check (Frame (first :: rest)) s = (Return (Some rest), s)).
    { rewrite read_and_check_frame, (start_cell_as_is _ _ Hrow).
      destruct H as [H|H]; rewrite H; reflexivity. }
    split; [exact R|].
    unfold get_regions, bind. rewrite R. unfold dict_values.
    destruct (build_regions rest); reflexivity.
  - intros Hd H1 H2.
    assert (R : forall s', read_and_check (Frame (first :: rest)) s' =
                           (Raise (SystemExit 1), s')).
    { intros s'. rewrite read_and_check_frame. unfold start_cell.
      assert (D : str_isdigit (scalar_of (start first)) = false)
        by now rewrite scalar_of_isdigit.
      assert (T : is_header_token (scalar_of (start first)) = false).
      { destruct (is_header_token (scalar_of (start first))) eqn:E; [|reflexivity].
        apply scalar_of_token in E. tauto. }
      destruct (row_dtype (first :: rest)); rewrite ?D, ?T; reflexivity. }
    split.
    + unfold get_regions, bind. now rewrite R.
    + intros. unfold retrieve_seq, get_regions, bind. cbn [set_self].
      now rewrite R.
Qed.

Lemma header_row_handling_witness :
  get_regions (Frame [header_row "chromStart"; mkRow (CStr "1") (CInt 5) (CInt 9)])
              start_state
  = (Raise (SystemExit 1), start_state).
Proof.
  apply (header_row_handling (header_row "chromStart")
           [mkRow (CStr "1") (CInt 5) (CInt 9)] start_state);
    [reflexivity | discriminate | discriminate].
Defined.

(** C3 as stated fails: ["START"] matches the header token when case is
    ignored, yet the row is not dropped; the process exits with status 1. *)
Lemma header_token_is_case_sensitive :
  Spec.header_token (start (header_row "START")) = true
  /\ PyStr.isdigit (astype_str (start (header_row "START"))) = false
  /\ get_regions (Frame [header_row "START"; mkRow (CStr "1") (CInt 5) (CInt 9)])
                 start_state
     = (Raise (SystemExit 1), start_state)
  /\ get_regions (Frame [header_row "START"; mkRow (CStr "1") (CInt 5) (CInt 9)])
                 start_state
     <> get_regions (Frame [header_row "start"; mkRow (CStr "1") (CInt 5) (CInt 9)])
                    start_state.
Proof.
  repeat split; try reflexivity. vm_compute. discriminate.
Qed.

(** ** Grouping in fifties *)

Lemma div50_eqb (o k : nat) :
  ((o / 50 =? k) = true <-> 50 * k <= o < 50 * k + 50)%nat.
Proof.
  pose proof (Nat.div_mod_eq o 50) as E.
  pose proof (Nat.mod_upper_bound o 50 ltac:(discriminate)) as U.
  rewrite Nat.eqb_eq. split; intros H; lia.
Qed.

Lemma batch_count_lt (n k : nat) :
  (k < Spec.batch_count n <-> 50 * k < n)%nat.
Proof.
  unfold Spec.batch_count.
  pose proof (Nat.div_mod_eq (n + 49) 50) as E.
  pose proof (Nat.mod_upper_bound (n + 49) 50 ltac:(discriminate)) as U.
  lia.
Qed.

Lemma firstn_plus {A} (a b : nat) (l : list A) :
  firstn (a + b) l = (firstn a l ++ firstn b (skipn a l))%list.
Proof.
  revert l; induction a as [|a IH]; intros l; [reflexivity|].
  destruct l as [|x l]; simpl.
  - now rewrite firstn_nil.
  - now rewrite IH.
Qed.

(** The rows labelled [k] are the [k]-th run of fifty rows. *)
Lemma select_label_from {A} (k : nat) (rows : list A) :
  forall o,
    select_label k rows (map (fun i => i / 50)%nat (seq o (List.length rows)))
    = firstn (50 * k + 50 - Nat.max o (50 * k)) (skipn (50 * k - o) rows).
Proof.
  unfold select_label.
  induction rows as [|x rows IH]; intros o.
  - simpl. now rewrite skipn_nil, firstn_nil.
  - cbn [List.length seq map combine filter snd].
    destruct (o / 50 =? k)%nat eqn:E; cbn [map fst]; rewrite IH.
    + apply div50_eqb in E.
      replace (50 * k - o)%nat with 0%nat by lia.
      replace (50 * k - S o)%nat with 0%nat by lia.
      replace (50 * k + 50 - Nat.max o (50 * k))%nat
        with (S (50 * k + 50 - Nat.max (S o) (50 * k)))%nat by lia.
      reflexivity.
    + assert (H : (o < 50 * k \/ 50 * k + 50 <= o)%nat).
      { destruct (Nat.lt_ge_cases o (50 * k)) as [?|?]; [now left|].
        destruct (Nat.lt_ge_cases o (50 * k + 50)) as [?|?]; [|now right].
        assert ((o / 50 =? k)%nat = true) by (apply div50_eqb; lia). congruence. }
      destruct H as [H|H].
      * replace (50 * k - o)%nat with (S (50 * k - S o))%nat by lia.
        rewrite skipn_cons.
        replace (Nat.max (S o) (50 * k)) with (Nat.max o (50 * k)) by lia.
        reflexivity.
      * replace (50 * k + 50 - Nat.max o (50 * k))%nat with 0%nat by lia.
        replace (50 * k + 50 - Nat.max (S o) (50 * k))%nat with 0%nat by lia.
        reflexivity.
Qed.

Lemma select_label_chunk {A} (k : nat) (rows : list A) :
  select_label k rows (group_labels (List.length rows))
  = firstn 50 (skipn (50 * k) rows).
Proof.
  unfold group_labels. rewrite select_label_from.
  replace (50 * k + 50 - Nat.max 0 (50 * k))%nat with 50%nat by lia.
  now rewrite Nat.sub_0_r.
Qed.

Lemma filter_seq_below (f : nat -> bool) (m : nat) :
  (forall k, f k = true <-> (k < m)%nat) ->
  forall len a, (m <= a + len)%nat -> filter f (seq a len) = seq a (m - a).
Proof.
  intros Hf. induction len as [|len IH]; intros a Hm.
  - replace (m - a)%nat with 0%nat by lia. reflexivity.
  - cbn [seq filter]. rewrite IH by lia.
    destruct (f a) eqn:E.
    + apply Hf in E. replace (m - a)%nat with (S (m - S a)) by lia. reflexivity.
    + assert (~ (a < m)%nat) by (rewrite <- Hf; congruence).
      replace (m - a)%nat with 0%nat by lia.
      replace (m - S a)%nat with 0%nat by lia. reflexivity.
Qed.

Lemma label_occurs (n k : nat) :
  existsb (Nat.eqb k) (group_labels n) = true <-> (k < Spec.batch_count n)%nat.
Proof.
  rewrite batch_count_lt. unfold group_labels. rewrite existsb_exists. split.
  - intros [x [Hin Hx]]. apply in_map_iff in Hin as [i [Hi Hin]].
    apply in_seq in Hin. apply Nat.eqb_eq in Hx. subst x k.
    pose proof (Nat.div_mod_eq i 50). lia.
  - intros H. exists k. split; [|apply Nat.eqb_refl].
    apply in_map_iff. exists (50 * k)%nat. split.
    + rewrite Nat.mul_comm. now apply Nat.div_mul.
    + apply in_seq. lia.
Qed.

Lemma in_le_list_max (x : nat) (l : list nat) : In x l -> (x <= list_max l)%nat.
Proof.
  intros H.
  pose proof (proj1 (list_max_le l (list_max l)) (Nat.le_refl _)) as F.
  rewrite Forall_forall in F. now apply F.
Qed.

Lemma distinct_group_labels (n : nat) :
  distinct_labels (group_labels n) = seq 0 (Spec.batch_count n).
Proof.
  unfold distinct_labels.
  rewrite (filter_seq_below _ (Spec.batch_count n)).
  - now rewrite Nat.sub_0_r.
  - intros k. apply label_occurs.
  - destruct (Spec.batch_count n) as [|m] eqn:E; [lia|].
    assert (H : existsb (Nat.eqb m) (group_labels n) = true)
      by (apply label_occurs; lia).
    apply existsb_exists in H as [x [Hin Hx]].
    apply Nat.eqb_eq in Hx. subst x.
    apply in_le_list_max in Hin. lia.
Qed.

(** [groupby] on the labels of line 164 cuts the frame into consecutive runs
    of fifty rows. *)
Lemma groupby_chunks {A} (rows : list A) :
  groupby rows (group_labels (List.length rows))
  = map (fun k => (k, firstn 50 (skipn (50 * k) rows)))
        (seq 0 (Spec.batch_count (List.length rows))).
Proof.
  unfold groupby. rewrite distinct_group_labels.
  apply map_ext. intros k. now rewrite select_label_chunk.
Qed.

Lemma concat_chunks {A} (rows : list A) (m : nat) :
  List.concat (map (fun k => firstn 50 (skipn (50 * k) rows)) (seq 0 m))
  = firstn (50 * m) rows.
Proof.
  induction m as [|m IH]; [reflexivity|].
  rewrite seq_S, map_app, concat_app, IH. cbn [map List.concat Nat.add].
  rewrite app_nil_r.
  replace (50 * S m)%nat with (50 * m + 50)%nat by lia.
  now rewrite firstn_plus.
Qed.

(** A group of [groupby] holds between one and fifty rows. *)
Lemma groupby_nonempty {A} (rows : list A) (g : nat * list A) :
  In g (groupby rows (group_labels (List.length rows))) ->
  (1 <= List.length (snd g) <= 50)%nat.
Proof.
  rewrite groupby_chunks. intros H.
  apply in_map_iff in H as [k [Hg Hk]]. subst g. cbn [snd].
  apply in_seq in Hk. destruct Hk as [_ Hk]. cbn in Hk.
  apply batch_count_lt in Hk.
  rewrite length_firstn, length_skipn. lia.
Qed.

(** ** The batches *)

Lemma batches_of_chunks (reads : list row) :
  batches_of reads
  = map (fun k => map region (firstn 50 (skipn (50 * k) reads)))
        (seq 0 (Spec.batch_count (List.length reads))).
Proof.
  unfold batches_of. rewrite groupby_chunks, map_map. reflexivity.
Qed.

(** The batches, one after the other, are the regions of the rows in the
    order of the rows. *)
Lemma batches_of_concat (reads : list row) :
  List.concat (batches_of reads) = map region reads.
Proof.
  rewrite batches_of_chunks.
  rewrite <- (map_map (fun k => firstn 50 (skipn (50 * k) reads)) (map region)).
  rewrite <- concat_map, concat_chunks, firstn_all2; [reflexivity|].
  set (n := List.length reads).
  pose proof (proj2 (batch_count_lt n (Spec.batch_count n))). lia.
Qed.

Lemma batches_of_length (reads : list row) :
  List.length (batches_of reads) = Spec.batch_count (List.length reads).
Proof.
  rewrite batches_of_chunks. now rewrite length_map, length_seq.
Qed.

Lemma batches_of_size (reads : list row) :
  Forall (fun b => (1 <= List.length b <= 50)%nat) (batches_of reads).
Proof.
  unfold batches_of. rewrite Forall_map, Forall_forall. intros g Hg.
  rewrite length_map. now apply groupby_nonempty in Hg.
Qed.

Lemma canonicalize_length (reads : list row) :
  List.length (canonicalize reads) = List.length reads.
Proof.
  unfold canonicalize.
  destruct (existsb _ reads); [apply length_map | reflexivity].
Qed.

Lemma build_regions_fold (reads : list row) :
  build_regions reads
  = fold_left (fun d b => dict_update (first_region b) b d)
              (batches_of (canonicalize reads)) [].
Proof.
  unfold build_regions, batch_loop, batches_of.
  generalize (@nil (string * list string)).
  induction (groupby (canonicalize reads)
               (group_labels (List.length (canonicalize reads)))) as [|g gs IH];
    intros d; [reflexivity|].
  cbn [map fold_left]. apply IH.
Qed.

Lemma dict_update_fresh {V} (k : string) (v : V) (d : dict V) :
  ~ In k (map fst d) -> dict_update k v d = (d ++ [(k, v)])%list.
Proof.
  induction d as [|[k' v'] d IH]; intros H; [reflexivity|].
  cbn [dict_update map fst In] in *.
  destruct (String.eqb_spec k' k) as [E|E]; [tauto|].
  cbn [app]. rewrite IH; tauto.
Qed.

(** While the first regions of the batches differ from one another, the
    dict keeps every batch, in the order of the loop. *)
Lemma fold_update_distinct (bs : list (list string)) :
  forall d : dict (list string),
    NoDup (map fst d ++ map first_region bs)%list ->
    fold_left (fun d b => dict_update (first_region b) b d) bs d
    = (d ++ map (fun b => (first_region b, b)) bs)%list.
Proof.
  induction bs as [|b bs IH]; intros d H; cbn [fold_left map].
  - now rewrite app_nil_r.
  - cbn [map] in H.
    pose proof (NoDup_remove_2 _ _ _ H) as Hfresh.
    rewrite dict_update_fresh by (intros Hin; apply Hfresh, in_or_app; now left).
    rewrite IH.
    + now rewrite <- app_assoc.
    + rewrite map_app, <- app_assoc. exact H.
Qed.

Lemma build_regions_distinct (reads : list row) :
  NoDup (map first_region (batches_of (canonicalize reads))) ->
  dict_values (build_regions reads) = batches_of (canonicalize reads).
Proof.
  intros H. rewrite build_regions_fold, fold_update_distinct by exact H.
  unfold dict_values. cbn [app]. rewrite map_map. cbn [snd]. apply map_id.
Qed.

Lemma fold_update_nonempty (bs : list (list string)) :
  forall d : dict (list string),
    (d <> [] \/ bs <> []) ->
    fold_left (fun d b => dict_update (first_region b) b d) bs d <> [].
Proof.
  induction bs as [|b bs IH]; intros d H; cbn [fold_left].
  - destruct H as [H|H]; [exact H | congruence].
  - apply IH. left. destruct d as [|[k v] d]; cbn [dict_update]; [discriminate|].
    destruct (k =? first_region b)%string; discriminate.
Qed.

Lemma build_regions_nonempty (first : row) (rest : list row) :
  build_regions (first :: rest) <> [].
Proof.
  rewrite build_regions_fold. apply fold_update_nonempty. right.
  intros E. apply (f_equal (@List.length _)) in E.
  rewrite batches_of_length, canonicalize_length in E. cbn [List.length] in E.
  pose proof (proj2 (batch_count_lt (S (List.length rest)) 0)). lia.
Qed.

(** [get_regions], case by case: what it makes of each result of
    [read_csv]. *)
Lemma get_regions_cases (csv : csv_result) (s : state) :
  get_regions csv s
  = match csv with
    | ReadValueError msg =>
        if PyStr.contains "Usecols do not match columns" msg
        then (Raise (SystemExit 1),
              mkState (self s) (clock s)
                (trace s ++ [Out Stdout
                   ((PyStr.newline
                       ++ " Error: Please check the indentation of the columns in input bed file")
                      ++ PyStr.newline)%string])%list)
        else (Raise UnboundLocalError, s)
    | ReadRaises class => (Raise (Other class), s)
    | Frame [] => (Raise IndexError, s)
    | Frame (first :: rest) =>
        if str_isdigit (start_cell (first :: rest) first)
        then (Return (build_regions (first :: rest)), s)
        else if is_header_token (start_cell (first :: rest) first)
             then (match rest with
                   | [] => Raise IndexError
                   | _ :: _ => Return (build_regions rest)
                   end, s)
             else (Raise (SystemExit 1), s)
    end.
Proof.
  unfold get_regions, bind.
  destruct csv as [[|first rest]|msg|msg]; try reflexivity.
  - rewrite read_and_check_frame.
    destruct (str_isdigit _).
    + pose proof (build_regions_nonempty first rest) as N. unfold dict_values.
      destruct (build_regions (first :: rest)); [congruence | reflexivity].
    + destruct (is_header_token _); [|reflexivity].
      destruct rest as [|second rest]; [reflexivity|].
      pose proof (build_regions_nonempty second rest) as N. unfold dict_values.
      destruct (build_regions (second :: rest)); [congruence | reflexivity].
  - unfold read_and_check.
    destruct (PyStr.contains "Usecols do not match columns" msg); reflexivity.
Qed.

(** X2.  For a frame whose first row the code takes for a data row (the
    [start] value that it reads from the row prints as digits), and as long
    as no two batches begin with the same region, [get_regions] returns the
    batches that partition the canonical regions in the order of the
    input, [ceil(N/50)] of them, each of one to fifty regions. *)
Lemma get_regions_partition (first : row) (rest : list row) (s : state) :
  str_isdigit (start_cell (first :: rest) first) = true ->
  NoDup (map first_region (batches_of (canonicalize (first :: rest)))) ->
  exists regions,
    get_regions (Frame (first :: rest)) s = (Return regions, s)
    /\ List.concat (dict_values regions) = map region (canonicalize (first :: rest))
    /\ List.length (dict_values regions) = Spec.batch_count (S (List.length rest))
    /\ Forall (fun b => (1 <= List.length b <= 50)%nat) (dict_values regions).
Proof.
  intros Hd Hk. exists (build_regions (first :: rest)).
  pose proof (build_regions_distinct _ Hk) as E.
  repeat split.
  - now rewrite get_regions_cases, Hd.
  - rewrite E. apply batches_of_concat.
  - rewrite E, batches_of_length, canonicalize_length. reflexivity.
  - rewrite E. apply batches_of_size.
Qed.

(** The worked example of the specification: two rows, one batch of two
    regions. *)
Example round_trip :
  get_regions (Frame [mkRow (CStr "1") (CInt 1000) (CInt 2000);
                      mkRow (CStr "chrM") (CInt 50) (CInt 100)]) start_state
  = (Return [("1:1000..2000", ["1:1000..2000"; "MT:50..100"])], start_state).
Proof. reflexivity. Qed.

(** A table with a missing [end]: the column is one of floats, and every
    number in it prints as a float. *)
Example float_column :
  get_regions (Frame [mkRow (CStr "chr1") (CInt 5) (CFloat (PyStr.Finite false 200 0));
                      mkRow (CStr "chr1") (CInt 7) CNaN]) start_state
  = (Return [("1:5..200.0", ["1:5..200.0"; "1:7..nan"])], start_state).
Proof. reflexivity. Qed.

(** C1 at the input that breaks it.  Of 51 equal rows the first fifty and
    the last one make two batches that begin with the same region; the
    second takes the place of the first in the dict, and [get_regions]
    returns one batch with one region where [ceil(51/50) = 2] batches with
    51 regions are due.  It is so whether the chromosome is held as the
    text [1] or as the number 1. *)
Theorem duplicate_first_region_loses_batch :
  let reads := repeat (mkRow (CStr "1") (CInt 100) (CInt 200)) 51 in
  get_regions (Frame reads) start_state
  = (Return [("1:100..200", ["1:100..200"])], start_state)
  /\ List.length (batches_of (canonicalize reads)) = 2%nat
  /\ Spec.batch_count (List.length reads) = 2%nat
  /\ List.length (map region (canonicalize reads)) = 51%nat
  /\ get_regions (Frame (repeat (mkRow (CInt 1) (CInt 100) (CInt 200)) 51)) start_state
     = (Return [("1:100..200", ["1:100..200"])], start_state).
Proof.
  vm_compute. repeat split; reflexivity.
Qed.

(** C2 at the input that breaks it.  The code deletes ["chr"] wherever it
    stands, not only in front, and rewrites ["chrM"] inside a longer name:
    ["scaffold_chr1"] has no prefix to strip and comes out as
    ["scaffold_1"], and ["chrMT"] comes out as ["MTT"], not as ["MT"]. *)
Theorem chr_deleted_beyond_prefix :
  get_regions (Frame [mkRow (CStr "scaffold_chr1") (CInt 100) (CInt 200);
                      mkRow (CStr "chrMT") (CInt 1) (CInt 16569)]) start_state
  = (Return [("scaffold_1:100..200", ["scaffold_1:100..200"; "MTT:1..16569"])],
     start_state)
  /\ Spec.canonical_chrom "scaffold_chr1" = "scaffold_chr1"
  /\ Spec.canonical_chrom "chrMT" = "MT"
  /\ canonical_chrom "scaffold_chr1" = "scaffold_1"
  /\ canonical_chrom "chrMT" = "MTT".
Proof.
  vm_compute. repeat split; reflexivity.
Qed.

(** C7 at the input that breaks it.  A file that holds the header line and
    no data row leaves an empty frame and an empty dict, and [get_regions]
    then takes the first batch of none: it raises [IndexError] instead of
    returning the empty dict, so that [retrieve_seq] never reaches the
    retrieval.  An empty file fares no better: [read_csv] raises a
    [ValueError] that the handler lets pass, and [reads] is unbound. *)
Theorem zero_rows_raise
    (urlencode : dict param -> string) (json_dumps : dict (list string) -> string)
    (ensembl : list event -> http_request -> http_response) (args : arguments) :
  build_regions [] = []
  /\ get_regions (Frame [header_row "start"]) start_state
     = (Raise IndexError, start_state)
  /\ retrieve_seq urlencode json_dumps ensembl args (Frame [header_row "start"]) start_state
     = (Raise IndexError, start_state)
  /\ retrieve_seq urlencode json_dumps ensembl args
       (ReadValueError "No columns to parse from file") start_state
     = (Raise UnboundLocalError, start_state).
Proof.
  repeat split; reflexivity.
Qed.

(** What does hold of C7: over an empty dict of batches [submit_regions]
    sends nothing and returns no record. *)
Lemma submit_regions_empty
    (urlencode : dict param -> string) (json_dumps : dict (list string) -> string)
    (ensembl : list event -> http_request -> http_response)
    (species assembly : string) (upstream downstream : Z) (s : state) :
  submit_regions urlencode json_dumps ensembl species assembly [] upstream downstream s
  = (Return [], s).
Proof. reflexivity. Qed.

(** ** The rate limit *)

Lemma Qlt_bool_true (x y : Q) : (x < y)%Q -> Qlt_bool x y = true.
Proof.
  intros H. unfold Qlt_bool. destruct (Qle_bool y x) eqn:E; [|reflexivity].
  apply Qle_bool_iff in E. exfalso. lra.
Qed.

Lemma Qlt_bool_false (x y : Q) : (y <= x)%Q -> Qlt_bool x y = false.
Proof.
  intros H. unfold Qlt_bool. apply Qle_bool_iff in H. now rewrite H.
Qed.

(** C5.  While the counter is below the ceiling the step does nothing.
    Once the counter has reached the ceiling, the step takes the time
    [delta] since the last anchor; if [delta] is less than one second it
    sleeps for [1 - delta]; then it sets the counter to zero and the anchor
    to the time it then is.  The new anchor is at least one second after
    the old one.  The ceiling of a client made without arguments is 15. *)
Theorem rate_limit_step (s : state) :
  let c := self s in
  let delta := (clock s - last_req c)%Q in
  ((req_count c < reqs_per_sec c)%Z -> rate_limit s = (Return tt, s))
  /\ ((reqs_per_sec c <= req_count c)%Z -> (delta < 1)%Q ->
      rate_limit s =
      (Return tt,
       mkState (mkClient (server c) (reqs_per_sec c) 0 (clock s + (1 - delta))%Q)
               (clock s + (1 - delta))%Q
               (trace s ++ [Sleep (1 - delta)%Q])%list))
  /\ ((reqs_per_sec c <= req_count c)%Z -> (1 <= delta)%Q ->
      rate_limit s =
      (Return tt,
       mkState (mkClient (server c) (reqs_per_sec c) 0 (clock s)) (clock s) (trace s)))
  /\ ((reqs_per_sec c <= req_count c)%Z ->
      (last_req c + 1 <= last_req (self (snd (rate_limit s))))%Q)
  /\ reqs_per_sec default_client = 15%Z.
Proof.
  intros c delta.
  assert (Below : (req_count c < reqs_per_sec c)%Z -> rate_limit s = (Return tt, s)).
  { intros H. unfold rate_limit, bind, get_self. fold c.
    rewrite Z.geb_leb. apply Z.leb_gt in H. now rewrite H. }
  assert (Short : (reqs_per_sec c <= req_count c)%Z -> (delta < 1)%Q ->
      rate_limit s =
      (Return tt,
       mkState (mkClient (server c) (reqs_per_sec c) 0 (clock s + (1 - delta))%Q)
               (clock s + (1 - delta))%Q
               (trace s ++ [Sleep (1 - delta)%Q])%list)).
  { intros H D. unfold rate_limit, bind, get_self. fold c.
    rewrite Z.geb_leb. apply Z.leb_le in H. rewrite H.
    cbn [time_time]. fold delta. now rewrite (Qlt_bool_true _ _ D). }
  assert (Long : (reqs_per_sec c <= req_count c)%Z -> (1 <= delta)%Q ->
      rate_limit s =
      (Return tt,
       mkState (mkClient (server c) (reqs_per_sec c) 0 (clock s)) (clock s) (trace s))).
  { intros H D. unfold rate_limit, bind, get_self. fold c.
    rewrite Z.geb_leb. apply Z.leb_le in H. rewrite H.
    cbn [time_time]. fold delta. now rewrite (Qlt_bool_false _ _ D). }
  split; [exact Below|]. split; [exact Short|]. split; [exact Long|].
  split; [|reflexivity].
  intros H. destruct (Qlt_le_dec delta 1) as [D|D].
  - rewrite (Short H D). cbn. unfold delta. lra.
  - rewrite (Long H D). cbn. unfold delta in D. lra.
Qed.

Lemma rate_limit_step_witness :
  rate_limit (mkState (mkClient "https://rest.ensembl.org" 15 15 10) (41 # 4) [])
  = (Return tt,
     mkState (mkClient "https://rest.ensembl.org" 15 0
                       ((41 # 4) + (1 - ((41 # 4) - 10)))%Q)
             ((41 # 4) + (1 - ((41 # 4) - 10)))%Q
             [Sleep (1 - ((41 # 4) - 10))%Q]).
Proof.
  apply (rate_limit_step
           (mkState (mkClient "https://rest.ensembl.org" 15 15 10) (41 # 4) []));
    [cbn; lia | reflexivity].
Defined.

(** ** One request *)

(** The answers that are not [ok] are those with a status from 400 to
    599. *)
Lemma ok_status (r : http_response) :
  ok r = false <-> (400 <= status_code r < 600)%Z.
Proof.
  unfold ok. rewrite negb_false_iff, andb_true_iff, Z.leb_le, Z.ltb_lt.
  reflexivity.
Qed.

Section Runs.

Variable urlencode : dict param -> string.
Variable json_dumps : dict (list string) -> string.
Variable ensembl : list event -> http_request -> http_response.

(** The rate limit always returns; it keeps the configuration, leaves the
    counter or resets it, and adds at most a sleep to the trace. *)
Lemma rate_limit_run (s : state) :
  exists s1 sleeps,
    rate_limit s = (Return tt, s1)
    /\ server (self s1) = server (self s)
    /\ reqs_per_sec (self s1) = reqs_per_sec (self s)
    /\ req_count (self s1)
       = (if (req_count (self s) >=? reqs_per_sec (self s))%Z
          then 0%Z else req_count (self s))
    /\ trace s1 = (trace s ++ sleeps)%list
    /\ Forall (fun e => is_sleep e = true) sleeps.
Proof.
  unfold rate_limit, bind, get_self.
  destruct (req_count (self s) >=? reqs_per_sec (self s))%Z.
  - cbn [time_time].
    destruct (Qlt_bool (clock s - last_req (self s)) 1).
    + eexists. exists [Sleep (1 - (clock s - last_req (self s)))%Q].
      cbn. repeat split. repeat constructor.
    + eexists. exists []. cbn. rewrite app_nil_r. repeat split. constructor.
  - exists s, []. rewrite app_nil_r. repeat split. constructor.
Qed.

(** The request that [perform_rest_action] builds. *)
Let request_for (server endpoint : string) (hdrs : list (string * string))
    (params : dict param) (regions : option (dict (list string))) : http_request :=
  let endpoint :=
    match params with
    | _ :: _ => (endpoint ++ "?" ++ urlencode params)%string
    | [] => (endpoint ++ "?")%string
    end in
  match regions with
  | Some ((_ :: _) as body) => POST (server ++ endpoint) hdrs (json_dumps body)
  | _ => GET (server ++ endpoint) hdrs
  end.

(** A run of [perform_rest_action]: the rate limit, one request, and
    then one of three ends. *)
Lemma perform_rest_action_run (endpoint : string) (hdrs : list (string * string))
    (params : dict param) (regions : option (dict (list string))) (s : state) :
  exists s1 sleeps o s',
    rate_limit s = (Return tt, s1)
    /\ trace s1 = (trace s ++ sleeps)%list
    /\ Forall (fun e => is_sleep e = true) sleeps
    /\ req_count (self s1)
       = (if (req_count (self s) >=? reqs_per_sec (self s))%Z
          then 0%Z else req_count (self s))
    /\ perform_rest_action urlencode json_dumps ensembl endpoint hdrs params regions s
       = (o, s')
    /\ server (self s') = server (self s)
    /\ reqs_per_sec (self s') = reqs_per_sec (self s)
    /\ let req := request_for (server (self s)) endpoint hdrs params regions in
       let resp := ensembl (trace s1) req in
       trace s' = (trace s1 ++ [Http req resp])%list
       /\ ((ok resp = false /\ o = Raise (HTTPError resp)
            /\ req_count (self s') = req_count (self s1))
           \/ (ok resp = true /\ decoded resp = None /\ o = Raise JSONDecodeError
               /\ req_count (self s') = req_count (self s1))
           \/ (ok resp = true /\ exists d, decoded resp = Some d /\ o = Return d
               /\ req_count (self s') = (req_count (self s1) + 1)%Z)).
Proof.
  destruct (rate_limit_run s) as (s1 & sleeps & R & Hsrv & Hrps & Hcnt & Htr & Hsl).
  exists s1, sleeps.
  set (req := request_for (server (self s)) endpoint hdrs params regions).
  set (resp := ensembl (trace s1) req).
  assert (Send : forall k : http_response -> M json_doc,
    bind (match regions with
          | Some ((_ :: _) as body) =>
              send ensembl (POST (server (self s1) ++
                match params with
                | _ :: _ => (endpoint ++ "?" ++ urlencode params)%string
                | [] => (endpoint ++ "?")%string
                end) hdrs (json_dumps body))
          | _ => send ensembl (GET (server (self s1) ++
                match params with
                | _ :: _ => (endpoint ++ "?" ++ urlencode params)%string
                | [] => (endpoint ++ "?")%string
                end) hdrs)
          end) k s1
    = k resp (mkState (self s1) (clock s1 + elapsed resp)%Q
                      (trace s1 ++ [Http req resp])%list)).
  { intros k. unfold resp, req, request_for. rewrite <- Hsrv.
    destruct regions as [[|b body]|]; reflexivity. }
  unfold perform_rest_action. unfold bind at 1. rewrite R.
  unfold bind at 1. cbn [get_self]. rewrite Send.
  destruct (ok resp) eqn:Eok.
  - destruct (decoded resp) as [d|] eqn:Edec.
    + exists (Return d). eexists. split; [reflexivity|]. split; [exact Htr|].
      split; [exact Hsl|]. split; [exact Hcnt|].
      split.
      { unfold bind, json, ret. rewrite Edec. cbn. reflexivity. }
      cbn. repeat split; auto.
      right; right. split; [exact Eok|]. exists d. auto.
    + exists (Raise JSONDecodeError). eexists. split; [reflexivity|]. split; [exact Htr|].
      split; [exact Hsl|]. split; [exact Hcnt|].
      split.
      { unfold bind, json, ret. rewrite Edec. cbn. reflexivity. }
      cbn. repeat split; auto.
      right; left. auto.
  - exists (Raise (HTTPError resp)). eexists. split; [reflexivity|]. split; [exact Htr|].
    split; [exact Hsl|]. split; [exact Hcnt|].
    split.
    { unfold bind, raise_for_status. cbn [negb].
      unfold ok in Eok. apply negb_false_iff in Eok. rewrite Eok. reflexivity. }
    cbn. repeat split; auto.
Qed.

End Runs.

(** ** Requests, the counter and retrieval *)

Lemma sleeps_no_output (sleeps : list event) :
  Forall (fun e => is_sleep e = true) sleeps ->
  Forall (fun e => is_output e = false) sleeps.
Proof.
  apply Forall_impl. intros [d|req resp|path|dest text]; cbn; congruence.
Qed.

Lemma sleeps_no_http (sleeps : list event) (req : http_request) (resp : http_response) :
  Forall (fun e => is_sleep e = true) sleeps -> ~ In (Http req resp) sleeps.
Proof.
  intros F Hin. rewrite Forall_forall in F. apply F in Hin. discriminate.
Qed.

Section Retrieval.

Variable urlencode : dict param -> string.
Variable json_dumps : dict (list string) -> string.
Variable ensembl : list event -> http_request -> http_response.

(** C6.  [perform_rest_action] sends exactly one request, after the
    sleep of the rate limit if there is one.  With a body (a dict that is
    not empty) it is a POST that carries [json.dumps] of the body and the
    headers it was given; without a body it is a GET.  The body that
    [get_sequences] sends for a batch is the dict with the batch under
    [regions], and its headers hold [Content-Type: application/json]. *)
Theorem request_method (endpoint : string) (hdrs : list (string * string))
    (params : dict param) (s : state) :
  let url := (server (self s) ++
                match params with
                | _ :: _ => endpoint ++ "?" ++ urlencode params
                | [] => endpoint ++ "?"
                end)%string in
  (forall body, body <> [] ->
     exists sleeps resp,
       Forall (fun e => is_sleep e = true) sleeps
       /\ trace (snd (perform_rest_action urlencode json_dumps ensembl
                        endpoint hdrs params (Some body) s))
          = (trace s ++ sleeps ++ [Http (POST url hdrs (json_dumps body)) resp])%list)
  /\ (exists sleeps resp,
       Forall (fun e => is_sleep e = true) sleeps
       /\ trace (snd (perform_rest_action urlencode json_dumps ensembl
                        endpoint hdrs params None s))
          = (trace s ++ sleeps ++ [Http (GET url hdrs) resp])%list)
  /\ (forall species assembly value upstream downstream,
       exists sleeps resp url' hdrs',
         Forall (fun e => is_sleep e = true) sleeps
         /\ In ("Content-Type", "application/json") hdrs'
         /\ trace (snd (get_sequences urlencode json_dumps ensembl species assembly
                          [("regions", value)] upstream downstream s))
            = (trace s ++ sleeps
                 ++ [Http (POST url' hdrs' (json_dumps [("regions", value)])) resp])%list).
Proof.
  intros url. split; [|split].
  - intros body Hb.
    destruct (perform_rest_action_run urlencode json_dumps ensembl
                endpoint hdrs params (Some body) s)
      as (s1 & sleeps & o & s' & _ & Htr & Hsl & _ & P & _ & _ & Hs' & _).
    rewrite P. cbn [snd]. rewrite Hs', Htr, <- app_assoc.
    exists sleeps. eexists. split; [exact Hsl|].
    destruct body as [|b body]; [congruence | reflexivity].
  - destruct (perform_rest_action_run urlencode json_dumps ensembl
                endpoint hdrs params None s)
      as (s1 & sleeps & o & s' & _ & Htr & Hsl & _ & P & _ & _ & Hs' & _).
    rewrite P. cbn [snd]. rewrite Hs', Htr, <- app_assoc.
    exists sleeps. eexists. split; [exact Hsl | reflexivity].
  - intros species assembly value upstream downstream.
    unfold get_sequences. cbv zeta.
    match goal with
    | |- context [perform_rest_action _ _ _ ?e ?h ?p ?r s] =>
        destruct (perform_rest_action_run urlencode json_dumps ensembl e h p r s)
          as (s1 & sleeps & o & s' & _ & Htr & Hsl & _ & P & _ & _ & Hs' & _)
    end.
    rewrite P. cbn [snd]. rewrite Hs', Htr, <- app_assoc.
    exists sleeps. do 3 eexists. split; [exact Hsl|]. split; [|reflexivity].
    now left.
Qed.

(** C10, as the code has it.  [perform_rest_action] sends one request,
    and what becomes of the counter is decided by the answer.  On a status
    from 400 to 599 the call raises the [HTTPError] of the answer, and on
    another status with a body that does not decode it raises
    [JSONDecodeError]: in both cases the counter is what the rate limit
    left of it ([base]: the counter as it was, or zero after a reset).  On
    another status with a body that decodes the call returns the document
    and the counter is one more than that.  With the ceiling of 15 that
    every client of the program has, a counter between 0 and 15 stays
    between 0 and 15. *)
Theorem req_count_invariant (endpoint : string) (hdrs : list (string * string))
    (params : dict param) (regions : option (dict (list string))) (s : state) :
  let c := self s in
  let base := if (req_count c >=? reqs_per_sec c)%Z then 0%Z else req_count c in
  let run := perform_rest_action urlencode json_dumps ensembl
               endpoint hdrs params regions s in
  let c' := self (snd run) in
  reqs_per_sec c' = reqs_per_sec c
  /\ (exists before req resp,
        trace (snd run) = (before ++ [Http req resp])%list
        /\ ((400 <= status_code resp < 600)%Z ->
            fst run = Raise (HTTPError resp) /\ req_count c' = base)
        /\ (~ (400 <= status_code resp < 600)%Z -> decoded resp = None ->
            fst run = Raise JSONDecodeError /\ req_count c' = base)
        /\ (~ (400 <= status_code resp < 600)%Z ->
            forall d, decoded resp = Some d ->
            fst run = Return d /\ req_count c' = (base + 1)%Z))
  /\ (reqs_per_sec c = reqs_per_sec default_client ->
      (0 <= req_count c <= 15)%Z -> (0 <= req_count c' <= 15)%Z).
Proof.
  intros c base run c'.
  destruct (perform_rest_action_run urlencode json_dumps ensembl
              endpoint hdrs params regions s)
    as (s1 & sleeps & o & s' & _ & Htr & Hsl & Hcnt & P & _ & Hrps & Hlast).
  fold c in Hcnt. fold base in Hcnt. fold c in Hrps.
  unfold c', run. rewrite P. cbn [fst snd]. cbv zeta in Hlast.
  match type of Hlast with
  | (trace s' = (trace s1 ++ [Http ?rq ?rp])%list) /\ _ =>
      set (resp0 := rp) in *; set (req0 := rq) in *
  end.
  destruct Hlast as [Hs' Hend].
  pose proof (ok_status resp0) as St.
  split; [exact Hrps|]. split.
  - exists (trace s1), req0, resp0. split; [exact Hs'|].
    destruct Hend as [(Hok & Ho & Hc) | [(Hok & Hdec & Ho & Hc) | (Hok & d & Hdec & Ho & Hc)]];
      subst o; (split; [|split]).
    + intros _. split; [reflexivity | congruence].
    + intros Hn. exfalso. apply Hn, St, Hok.
    + intros Hn. exfalso. apply Hn, St, Hok.
    + intros Hf. apply St in Hf. congruence.
    + intros _ _. split; [reflexivity | congruence].
    + intros _ d E. congruence.
    + intros Hf. apply St in Hf. congruence.
    + intros _ E. congruence.
    + intros _ d' E. rewrite Hdec in E. injection E as <-.
      split; [reflexivity | congruence].
  - intros H1 H2. change (reqs_per_sec default_client) with 15%Z in H1.
    assert (Hb : (0 <= base < 15)%Z).
    { unfold base. destruct (req_count c >=? reqs_per_sec c)%Z eqn:E; [lia|].
      rewrite Z.geb_leb in E. apply Z.leb_gt in E. lia. }
    destruct Hend as [(_ & _ & Hc) | [(_ & _ & _ & Hc) | (_ & d & _ & _ & Hc)]];
      rewrite Hc, Hcnt; lia.
Qed.

End Retrieval.

Lemma get_regions_run (csv : csv_result) (s : state) :
  exists o s' outs,
    get_regions csv s = (o, s')
    /\ self s' = self s
    /\ trace s' = (trace s ++ outs)%list
    /\ Forall (fun e => is_http e = false) outs
    /\ (forall regions, o = Return regions -> outs = []).
Proof.
  assert (Same : forall o, exists o' s' outs,
            (o, s) = (o' : outcome (dict (list string)), s')
            /\ self s' = self s
            /\ trace s' = (trace s ++ outs)%list
            /\ Forall (fun e => is_http e = false) outs
            /\ (forall regions, o' = Return regions -> outs = [])).
  { intros o. exists o, s, []. rewrite app_nil_r. repeat split; auto. }
  rewrite get_regions_cases.
  destruct csv as [[|first rest]|msg|msg]; try apply Same.
  - destruct (str_isdigit _); [apply Same|].
    destruct (is_header_token _); apply Same.
  - destruct (PyStr.contains "Usecols do not match columns" msg); [|apply Same].
    do 3 eexists. split; [reflexivity|]. cbn. repeat split.
    + repeat constructor.
    + discriminate.
Qed.

Section AllOrNothing.

Variable urlencode : dict param -> string.
Variable json_dumps : dict (list string) -> string.
Variable ensembl : list event -> http_request -> http_response.

(** The loop of [submit_regions] writes nothing, and a response that is
    not [ok] ends it at once with the error that carries the response. *)
Lemma submit_loop_run (species assembly : string) (upstream downstream : Z)
    (items : dict (list string)) :
  forall (sequences : list item) (s : state) o s',
    submit_loop urlencode json_dumps ensembl species assembly items
                upstream downstream sequences s = (o, s') ->
    exists evs,
      trace s' = (trace s ++ evs)%list
      /\ Forall (fun e => is_output e = false) evs
      /\ forall req resp,
           In (Http req resp) evs -> ok resp = false ->
           o = Raise (HTTPError resp)
           /\ exists before, evs = (before ++ [Http req resp])%list.
Proof.
  induction items as [|[key value] items IH]; intros sequences s o s' H.
  - cbn in H. injection H as <- <-. exists []. rewrite app_nil_r.
    repeat split; [constructor | contradiction | contradiction].
  - cbn [submit_loop] in H. unfold bind at 1 in H.
    unfold get_sequences in H. cbv zeta in H.
    match type of H with
    | context [perform_rest_action _ _ _ ?e ?h ?p ?r s] =>
        destruct (perform_rest_action_run urlencode json_dumps ensembl e h p r s)
          as (s1 & sleeps & o1 & s2 & _ & Htr & Hsl & _ & P & _ & _ & Hlast)
    end.
    rewrite P in H. cbv zeta in Hlast.
    match type of Hlast with
    | (trace s2 = (trace s1 ++ [Http ?rq ?rp])%list) /\ _ =>
        set (resp0 := rp) in *; set (req0 := rq) in *
    end.
    destruct Hlast as [Hs2 Hend].
    assert (T2 : trace s2 = (trace s ++ sleeps ++ [Http req0 resp0])%list)
      by (rewrite Hs2, Htr, <- app_assoc; reflexivity).
    assert (NoOut : Forall (fun e => is_output e = false)
                           (sleeps ++ [Http req0 resp0])%list)
      by (apply Forall_app; split;
          [now apply sleeps_no_output | repeat constructor]).
    destruct Hend as [(Hok & Ho & _) | [(Hok & _ & Ho & _) | (Hok & d & _ & Ho & _)]];
      subst o1.
    + injection H as <- <-. eexists. split; [exact T2|]. split; [exact NoOut|].
      intros req resp Hin Hbad. apply in_app_or in Hin as [Hin|[Hin|[]]].
      * now apply sleeps_no_http in Hin.
      * injection Hin as <- <-. split; [reflexivity|]. now exists sleeps.
    + injection H as <- <-. eexists. split; [exact T2|]. split; [exact NoOut|].
      intros req resp Hin Hbad. apply in_app_or in Hin as [Hin|[Hin|[]]].
      * now apply sleeps_no_http in Hin.
      * injection Hin as <- <-. congruence.
    + apply IH in H as (evs & Tr & F & X).
      eexists. split; [rewrite Tr, T2, <- !app_assoc; reflexivity|].
      split; [rewrite app_assoc; apply Forall_app; split; assumption|].
      intros req resp Hin Hbad.
      apply in_app_or in Hin as [Hin|Hin];
        [now apply sleeps_no_http in Hin|].
      destruct Hin as [Hin|Hin]; [injection Hin as <- <-; congruence|].
      destruct (X req resp Hin Hbad) as (Ho & before & Hb).
      split; [exact Ho|]. eexists. rewrite Hb, !app_assoc. reflexivity.
Qed.

(** Writing the records sends nothing. *)
Lemma write_loop_run (dest : destination) (sequences : list item) :
  forall s,
  exists o s' outs,
    for_each sequences (fun sequence =>
      text <- format_record sequence ;;
      emit (Out dest (text ++ PyStr.newline)%string)) s = (o, s')
    /\ trace s' = (trace s ++ outs)%list
    /\ Forall (fun e => is_http e = false) outs.
Proof.
  induction sequences as [|[r|k] sequences IH]; intros s.
  - exists (Return tt), s, []. rewrite app_nil_r. repeat split. constructor.
  - cbn [for_each]. unfold bind at 1. cbn.
    match goal with
    | |- context [for_each sequences ?f ?s1] =>
        destruct (IH s1) as (o & s' & outs & E & Tr & F)
    end.
    exists o, s'. eexists. split; [exact E|]. cbn [trace] in Tr.
    split; [rewrite Tr, <- app_assoc; reflexivity|].
    constructor; [reflexivity | exact F].
  - exists (Raise TypeError), s, []. rewrite app_nil_r. repeat split. constructor.
Qed.

(** C4, as the code has it.  When, in a run of [retrieve_seq], a request
    comes back with a status from 400 to 599, the run ends with the
    [HTTPError] that carries that response; the failed request is the last
    thing the run did (no later batch is sent), and nothing was written
    before it: no record of an earlier batch, no file opened. *)
Theorem all_or_nothing (args : arguments) (csv : csv_result) (s : state)
    (o : outcome unit) (s' : state) (evs : list event)
    (req : http_request) (resp : http_response) :
  retrieve_seq urlencode json_dumps ensembl args csv s = (o, s') ->
  trace s' = (trace s ++ evs)%list ->
  In (Http req resp) evs ->
  (400 <= status_code resp < 600)%Z ->
  o = Raise (HTTPError resp)
  /\ (exists before, evs = (before ++ [Http req resp])%list)
  /\ Forall (fun e => is_output e = false) evs.
Proof.
  intros H Tr Hin Hbad. apply ok_status in Hbad.
  unfold retrieve_seq in H. unfold bind at 1 in H. cbn [set_self] in H.
  destruct (get_regions_run csv (mkState default_client (clock s) (trace s)))
    as (o1 & s1 & outs1 & G & _ & T1 & F1 & R1).
  unfold bind at 1 in H. rewrite G in H. cbn [trace] in T1.
  destruct o1 as [regions|e].
  - rewrite (R1 regions eq_refl), app_nil_r in T1.
    unfold bind at 1 in H. unfold submit_regions in H.
    match type of H with
    | context [submit_loop _ _ _ ?sp ?a ?r ?u ?d ?acc s1] =>
        destruct (submit_loop urlencode json_dumps ensembl sp a r u d acc s1)
          as [o2 s2] eqn:S
    end.
    apply submit_loop_run in S as (evs2 & T2 & F2 & X2). rewrite T1 in T2.
    destruct o2 as [sequences|e].
    + exfalso.
      assert (Out : exists outs, trace s' = (trace s2 ++ outs)%list
                                 /\ Forall (fun e => is_http e = false) outs).
      { destruct sequences as [|x sequences].
        - injection H as _ <-. exists []. rewrite app_nil_r. split; constructor.
        - destruct (arg_output args) as [[|ch path]|].
          + destruct (write_loop_run Stdout (x :: sequences) s2)
              as (o3 & s3 & outs & E & T3 & F3).
            rewrite E in H. injection H as _ <-. now exists outs.
          + unfold bind at 1 in H. cbn [emit] in H.
            match type of H with
            | context [for_each _ _ ?s3] =>
                destruct (write_loop_run (File (String ch path)) (x :: sequences) s3)
                  as (o3 & s4 & outs & E & T3 & F3)
            end.
            rewrite E in H. injection H as _ <-. cbn [trace] in T3.
            eexists. split; [rewrite T3, <- app_assoc; reflexivity|].
            constructor; [reflexivity | exact F3].
          + destruct (write_loop_run Stdout (x :: sequences) s2)
              as (o3 & s3 & outs & E & T3 & F3).
            rewrite E in H. injection H as _ <-. now exists outs. }
      destruct Out as (outs & T3 & F3).
      rewrite T2, <- app_assoc in T3. rewrite Tr in T3.
      apply app_inv_head in T3. subst evs.
      apply in_app_or in Hin as [Hin|Hin].
      * destruct (X2 req resp Hin Hbad) as [Ho _]. discriminate.
      * rewrite Forall_forall in F3. apply F3 in Hin. discriminate.
    + injection H as <- <-. rewrite Tr in T2. apply app_inv_head in T2. subst evs.
      destruct (X2 req resp Hin Hbad) as [Ho Hb]. injection Ho as ->. auto.
  - exfalso. injection H as _ <-. rewrite Tr in T1.
    apply app_inv_head in T1. subst evs.
    rewrite Forall_forall in F1. apply F1 in Hin. discriminate.
Qed.

End AllOrNothing.

(** A run on 101 rows, three batches, against a server that fails on the
    second request: the run ends with that failure, and the trace holds the
    two requests and nothing else. *)
Lemma all_or_nothing_witness :
  let run := retrieve_seq Example.urlencode Example.json_dumps Example.failing_second
               Example.args (Frame (Example.rows 101)) start_state in
  let req := POST ("https://rest.ensembl.org/sequence/region/human"
                     ++ "?coord_system_version&expand_3prime&expand_5prime")
                  [("Content-Type", "application/json"); ("Accept", "application/json")]
                  "regions=1:50..60" in
  let resp := mkResponse 500 (1 # 10) None in
  fst run = Raise (HTTPError resp)
  /\ (exists before, trace (snd run) = (before ++ [Http req resp])%list)
  /\ Forall (fun e => is_output e = false) (trace (snd run)).
Proof.
  intros run req resp.
  assert (Sent : In (Http req resp) (trace (snd run)))
    by (vm_compute; right; left; reflexivity).
  assert (Status : (400 <= status_code resp < 600)%Z) by (cbn; lia).
  exact (all_or_nothing Example.urlencode Example.json_dumps Example.failing_second
           Example.args (Frame (Example.rows 101)) start_state
           (fst run) (snd run) (trace (snd run)) req resp
           (surjective_pairing _) eq_refl Sent Status).
Defined.

(** C4 as stated fails: a status outside 200-299 is not always a failure.
    On 101 rows, three batches, against a server that answers the second
    request with status 300 and a body that decodes, the run returns and
    writes the records of all three batches. *)
Lemma status_300_is_no_failure :
  let run := retrieve_seq Example.urlencode Example.json_dumps Example.choices_second
               Example.args (Frame (Example.rows 101)) start_state in
  let req := POST ("https://rest.ensembl.org/sequence/region/human"
                     ++ "?coord_system_version&expand_3prime&expand_5prime")
                  [("Content-Type", "application/json"); ("Accept", "application/json")]
                  "regions=1:50..60" in
  let resp := mkResponse 300 (1 # 10) (Some (Sequences [Example.record])) in
  In (Http req resp) (trace (snd run))
  /\ ~ (200 <= status_code resp < 300)%Z
  /\ fst run = Return tt
  /\ outputs (trace (snd run))
     = [Out Stdout (record_text Example.record);
        Out Stdout (record_text Example.record);
        Out Stdout (record_text Example.record)].
Proof.
  intros run req resp. split; [|split; [|split]].
  - vm_compute. right; left. reflexivity.
  - cbn. lia.
  - vm_compute. reflexivity.
  - vm_compute. reflexivity.
Qed.

Lemma request_method_witness :
  exists sleeps resp,
    Forall (fun e => is_sleep e = true) sleeps
    /\ trace (snd (perform_rest_action Example.urlencode Example.json_dumps
                     Example.healthy "/sequence/region/human" Example.headers []
                     (Some [("regions", ["1:1..4"])]) start_state))
       = (trace start_state ++ sleeps
            ++ [Http (POST "https://rest.ensembl.org/sequence/region/human?"
                           Example.headers "regions=1:1..4") resp])%list.
Proof.
  apply (proj1 (request_method Example.urlencode Example.json_dumps Example.healthy
                  "/sequence/region/human" Example.headers [] start_state)
           [("regions", ["1:1..4"])]).
  discriminate.
Defined.

Lemma req_count_invariant_witness :
  let run := perform_rest_action Example.urlencode Example.json_dumps Example.healthy
               "/info/species" Example.headers [] None start_state in
  (0 <= req_count (self (snd run)) <= 15)%Z.
Proof.
  apply (req_count_invariant Example.urlencode Example.json_dumps Example.healthy
           "/info/species" Example.headers [] None start_state);
    [reflexivity | cbn; lia].
Defined.

(** C10 as stated fails: the counter also goes up after an answer whose
    status is no success status.  An answer with status 300 and a body
    that decodes is counted. *)
Lemma status_300_is_counted :
  let run := perform_rest_action Example.urlencode Example.json_dumps
               (fun _ _ => mkResponse 300 (1 # 10) (Some (Sequences [Example.record])))
               "/info/species" Example.headers [] None start_state in
  let resp := mkResponse 300 (1 # 10) (Some (Sequences [Example.record])) in
  trace (snd run) = [Http (GET "https://rest.ensembl.org/info/species?" Example.headers) resp]
  /\ ~ (200 <= status_code resp < 300)%Z
  /\ req_count (self start_state) = 0%Z
  /\ req_count (self (snd run)) = 1%Z.
Proof.
  intros run resp. split; [reflexivity|]. split; [cbn; lia|].
  split; reflexivity.
Qed.

(** ** The catalogue of genomes *)

Lemma string_compare_trans (s t u : string) :
  (s ?= t)%string <> Gt -> (t ?= u)%string <> Gt -> (s ?= u)%string <> Gt.
Proof.
  revert t u. induction s as [|a s IH]; intros [|b t] [|c u]; cbn;
    try congruence.
  unfold Ascii.compare.
  destruct (N.compare_spec (N_of_ascii a) (N_of_ascii b)) as [Eab|Lab|Gab];
    destruct (N.compare_spec (N_of_ascii b) (N_of_ascii c)) as [Ebc|Lbc|Gbc];
    try congruence; intros H1 H2.
  - rewrite Eab, Ebc, N.compare_refl. now apply IH with t.
  - rewrite (proj2 (N.compare_lt_iff _ _)) by lia. discriminate.
  - rewrite (proj2 (N.compare_lt_iff _ _)) by lia. discriminate.
  - rewrite (proj2 (N.compare_lt_iff _ _)) by lia. discriminate.
Qed.

Lemma string_leb_trans (s t u : string) :
  (s <=? t)%string = true -> (t <=? u)%string = true -> (s <=? u)%string = true.
Proof.
  unfold String.leb. intros H1 H2.
  pose proof (string_compare_trans s t u) as T.
  destruct (s ?= t)%string, (t ?= u)%string, (s ?= u)%string;
    try reflexivity; try discriminate; exfalso; apply T; congruence.
Qed.

Section Sorted.

Context {A : Type} (key : A -> string).

Let ordered (a b : A) : Prop := (key a <=? key b)%string = true.

Lemma insert_sorted_perm (x : A) (l : list A) :
  Permutation (x :: l) (insert_sorted key x l).
Proof.
  induction l as [|y l IH]; cbn; [reflexivity|].
  destruct (key x <=? key y)%string; [reflexivity|].
  rewrite perm_swap. now constructor.
Qed.

(** [sorted] keeps the elements. *)
Lemma sorted_perm (l : list A) : Permutation l (sorted key l).
Proof.
  induction l as [|x l IH]; cbn; [constructor|].
  rewrite <- insert_sorted_perm. now constructor.
Qed.

Lemma insert_sorted_ordered (x : A) (l : list A) :
  StronglySorted ordered l -> StronglySorted ordered (insert_sorted key x l).
Proof.
  induction l as [|y l IH]; intros S; cbn.
  - repeat constructor.
  - inversion S as [|? ? Sl Fy]; subst.
    destruct (key x <=? key y)%string eqn:E.
    + constructor; [exact S|]. constructor; [exact E|].
      revert Fy. apply Forall_impl. intros z Hz.
      unfold ordered in *. now apply string_leb_trans with (key y).
    + assert (Hyx : ordered y x).
      { unfold ordered. destruct (String.leb_total (key x) (key y)); congruence. }
      constructor; [now apply IH|].
      apply (Permutation_Forall (insert_sorted_perm x l)).
      now constructor.
Qed.

(** [sorted] puts the keys in ascending order. *)
Lemma sorted_ordered (l : list A) : StronglySorted ordered (sorted key l).
Proof.
  induction l as [|x l IH]; cbn; [constructor|].
  now apply insert_sorted_ordered.
Qed.

Lemma filter_insert_sorted (k : string) (x : A) (m : list A) :
  filter (fun a => (key a =? k)%string) (insert_sorted key x m)
  = filter (fun a => (key a =? k)%string) (x :: m).
Proof.
  induction m as [|y m IHm]; cbn [insert_sorted]; [reflexivity|].
  destruct (key x <=? key y)%string eqn:E; [reflexivity|].
  cbn [filter] in *. rewrite IHm.
  destruct (String.eqb_spec (key x) k) as [Hx|Hx];
    destruct (String.eqb_spec (key y) k) as [Hy|Hy]; try reflexivity.
  exfalso. rewrite Hx, Hy in E.
  destruct (String.leb_total k k); congruence.
Qed.

(** [sorted] is stable: the elements under one key keep their order. *)
Lemma sorted_stable (k : string) (l : list A) :
  filter (fun a => (key a =? k)%string) (sorted key l)
  = filter (fun a => (key a =? k)%string) l.
Proof.
  induction l as [|x l IH]; [reflexivity|].
  change (sorted key (x :: l)) with (insert_sorted key x (sorted key l)).
  rewrite filter_insert_sorted. cbn [filter]. now rewrite IH.
Qed.

End Sorted.

Lemma for_each_print {A} (line : A -> string) (l : list A) :
  forall s,
    for_each l (fun i => print (line i)) s
    = (Return tt,
       mkState (self s) (clock s)
               (trace s ++ map (fun i => Out Stdout (line i ++ PyStr.newline)%string) l)%list).
Proof.
  induction l as [|x l IH]; intros s; cbn [for_each map].
  - rewrite app_nil_r. now destruct s.
  - unfold bind at 1. cbn [print emit]. rewrite IH. cbn [self clock trace].
    now rewrite <- app_assoc.
Qed.

Section Catalogue.

Variable urlencode : dict param -> string.
Variable json_dumps : dict (list string) -> string.
Variable ensembl : list event -> http_request -> http_response.

Lemma spaces_repeat (n : nat) : PyStr.spaces n = PyStr.repeat_char " " n.
Proof. induction n as [|n IH]; cbn; [reflexivity | now rewrite IH]. Qed.

Lemma append_assoc (a b c : string) : ((a ++ b) ++ c = a ++ b ++ c)%string.
Proof. induction a as [|x a IH]; cbn; [reflexivity | now rewrite IH]. Qed.

Lemma genome_line_table (i : species) :
  (genome_line i ++ PyStr.newline)%string = table_line (name i) (display_name i).
Proof.
  unfold genome_line, table_line, PyStr.ljust.
  now rewrite spaces_repeat, !append_assoc.
Qed.

(** C9.  When the server answers with a list of species, [get_genomes]
    returns after it has printed, below the two lines of the table head,
    one line per entry that holds the name, padded to a width of 40, and
    the display name, the entries in ascending order of their names as
    strings compare, upper case before lower case.  Every entry is printed
    once, and entries of one name keep the order of the answer. *)
Theorem genomes_sorted_by_name (l : list species) (s : state) :
  (forall t req, ok (ensembl t req) = true
                 /\ decoded (ensembl t req) = Some (Species l)) ->
  let ascending (a b : species) := (name a <=? name b)%string = true in
  (exists before,
     Forall (fun e => is_output e = false) before
     /\ fst (get_genomes urlencode json_dumps ensembl s) = Return tt
     /\ trace (snd (get_genomes urlencode json_dumps ensembl s))
        = (trace s ++ before
             ++ [Out Stdout ("Name                                     Display name"
                               ++ PyStr.newline)%string;
                 Out Stdout ("------------------------------           ------------------------------"
                               ++ PyStr.newline)%string]
             ++ map (fun i => Out Stdout (table_line (name i) (display_name i)))
                    (sorted name l))%list)
  /\ Permutation l (sorted name l)
  /\ StronglySorted ascending (sorted name l)
  /\ (forall k, filter (fun i => (name i =? k)%string) (sorted name l)
                = filter (fun i => (name i =? k)%string) l)
  /\ map name (sorted name [mkSpecies "zebra" "Zebra"; mkSpecies "ant" "Ant"])
     = ["ant"; "zebra"]
  /\ map name (sorted name [mkSpecies "ant" "Ant"; mkSpecies "Zebra" "Zebra"])
     = ["Zebra"; "ant"].
Proof.
  intros Hsrv ascending.
  split; [|split; [apply sorted_perm | split; [apply sorted_ordered |
           split; [intros k; apply sorted_stable | split; reflexivity]]]].
  assert (Run : exists s2 before,
    get_genomes urlencode json_dumps ensembl s = (Return tt, s2)
    /\ Forall (fun e => is_output e = false) before
    /\ trace s2
       = (trace s ++ before
            ++ [Out Stdout (PyStr.ljust 40 "Name" ++ " Display name"
                              ++ PyStr.newline)%string;
                Out Stdout (PyStr.repeat_char "-" 30 ++ " "
                              ++ PyStr.repeat_char " " 9 ++ " "
                              ++ PyStr.repeat_char "-" 30
                              ++ PyStr.newline)%string]
            ++ map (fun i => Out Stdout (genome_line i ++ PyStr.newline)%string)
                   (sorted name l))%list).
  { unfold get_genomes. cbv zeta.
    match goal with
    | |- context [perform_rest_action _ _ _ ?e ?h ?p ?r] =>
        destruct (perform_rest_action_run urlencode json_dumps ensembl e h p r s)
          as (s1 & sleeps & o & s' & _ & Htr & Hsl & _ & P & _ & _ & Hlast)
    end.
    cbv zeta in Hlast. destruct Hlast as [Hs' Hend].
    match type of Hs' with
    | trace s' = (trace s1 ++ [Http ?rq ?rp])%list =>
        destruct (Hsrv (trace s1) rq) as [Hok Hdec]
    end.
    destruct Hend as [(Hbad & _) | [(_ & Hnone & _) | (_ & d & Hd & Ho & _)]];
      [congruence | congruence |].
    rewrite Hdec in Hd. injection Hd as <-. subst o.
    unfold bind at 1. rewrite P. cbn [doc_truthy].
    unfold bind. cbn [print emit]. rewrite for_each_print.
    eexists.
    match type of Hs' with
    | trace s' = (trace s1 ++ [?ev])%list => exists (sleeps ++ [ev])%list
    end.
    split; [reflexivity|]. split.
    - apply Forall_app. split; [apply sleeps_no_output, Hsl | repeat constructor].
    - cbn [trace]. rewrite Hs', Htr, <- !app_assoc. reflexivity. }
  destruct Run as (s2 & before & Run & F & T). rewrite Run. cbn [fst snd].
  exists before. split; [exact F|]. split; [reflexivity|].
  rewrite T. do 3 f_equal.
  apply map_ext. intros i. now rewrite genome_line_table.
Qed.

End Catalogue.

Lemma genomes_sorted_by_name_witness :
  map name (sorted name [mkSpecies "zebra" "Zebra"; mkSpecies "ant" "Ant"])
  = ["ant"; "zebra"]
  /\ Permutation [mkSpecies "zebra" "Zebra"; mkSpecies "ant" "Ant"]
                 (sorted name [mkSpecies "zebra" "Zebra"; mkSpecies "ant" "Ant"]).
Proof.
  pose proof (genomes_sorted_by_name Example.urlencode Example.json_dumps
                Example.catalogue
                [mkSpecies "zebra" "Zebra"; mkSpecies "ant" "Ant"] start_state
                (fun _ _ => conj eq_refl eq_refl)) as W.
  cbv zeta in W. split; [apply W | apply W].
Defined.

(** ** The counter over a whole run *)

Section Counter.

Variable urlencode : dict param -> string.
Variable json_dumps : dict (list string) -> string.
Variable ensembl : list event -> http_request -> http_response.

(** The counter of a client is in range. *)
Let in_range (c : EnsemblRestClient) : Prop :=
  (0 <= req_count c <= reqs_per_sec c)%Z.

Lemma perform_rest_action_counter (endpoint : string) (hdrs : list (string * string))
    (params : dict param) (regions : option (dict (list string))) (s : state) o s' :
  perform_rest_action urlencode json_dumps ensembl endpoint hdrs params regions s
  = (o, s') ->
  reqs_per_sec (self s') = reqs_per_sec (self s)
  /\ ((1 <= reqs_per_sec (self s))%Z -> in_range (self s) -> in_range (self s')).
Proof.
  intros H.
  destruct (perform_rest_action_run urlencode json_dumps ensembl
              endpoint hdrs params regions s)
    as (s1 & sleeps & o1 & s2 & _ & _ & _ & Hcnt & P & _ & Hrps & _ & Hend).
  rewrite P in H. injection H as -> ->.
  split; [exact Hrps|]. unfold in_range. intros H1 H2. rewrite Hrps.
  assert (Hb : (0 <= req_count (self s1) < reqs_per_sec (self s))%Z).
  { rewrite Hcnt.
    destruct (req_count (self s) >=? reqs_per_sec (self s))%Z eqn:E; [lia|].
    rewrite Z.geb_leb in E. apply Z.leb_gt in E. lia. }
  destruct Hend as [(_ & _ & Hc) | [(_ & _ & _ & Hc) | (_ & d & _ & _ & Hc)]];
    rewrite Hc; lia.
Qed.

Lemma submit_loop_counter (species assembly : string) (upstream downstream : Z)
    (items : dict (list string)) :
  forall (sequences : list item) (s : state) o s',
    submit_loop urlencode json_dumps ensembl species assembly items
                upstream downstream sequences s = (o, s') ->
    reqs_per_sec (self s') = reqs_per_sec (self s)
    /\ ((1 <= reqs_per_sec (self s))%Z -> in_range (self s) -> in_range (self s')).
Proof.
  induction items as [|[key value] items IH]; intros sequences s o s' H.
  - cbn in H. injection H as <- <-. auto.
  - cbn [submit_loop] in H. unfold bind at 1 in H.
    destruct (get_sequences urlencode json_dumps ensembl species assembly
                [("regions", value)] upstream downstream s) as [o1 s1] eqn:G.
    unfold get_sequences in G. cbv zeta in G.
    apply perform_rest_action_counter in G as [Hrps Hin].
    destruct o1 as [d|e].
    + apply IH in H as [Hrps' Hin']. split; [congruence|].
      intros H1 H2. apply Hin'; [congruence | auto].
    + injection H as <- <-. auto.
Qed.

Lemma write_loop_self (dest : destination) (sequences : list item) :
  forall s o s',
    for_each sequences (fun sequence =>
      text <- format_record sequence ;;
      emit (Out dest (text ++ PyStr.newline)%string)) s = (o, s') ->
    self s' = self s.
Proof.
  induction sequences as [|[r|k] sequences IH]; intros s o s' H.
  - injection H as <- <-. reflexivity.
  - cbn [for_each] in H. unfold bind at 1 in H. cbn in H.
    apply IH in H. exact H.
  - injection H as <- <-. reflexivity.
Qed.

(** X12.  Whatever the table and the server, and however the run ends,
    [retrieve_seq] leaves its client with the ceiling of 15 and a counter
    between 0 and 15. *)
Lemma retrieve_seq_counter (args : arguments) (csv : csv_result) (s : state) o s' :
  retrieve_seq urlencode json_dumps ensembl args csv s = (o, s') ->
  reqs_per_sec (self s') = 15%Z /\ (0 <= req_count (self s') <= 15)%Z.
Proof.
  intros H.
  unfold retrieve_seq in H. unfold bind at 1 in H. cbn [set_self] in H.
  destruct (get_regions_run csv (mkState default_client (clock s) (trace s)))
    as (o1 & s1 & outs1 & G & Hself & _).
  unfold bind at 1 in H. rewrite G in H. cbn [self] in Hself.
  destruct o1 as [regions|e].
  - unfold bind at 1 in H. unfold submit_regions in H.
    match type of H with
    | context [submit_loop _ _ _ ?sp ?a ?r ?u ?d ?acc s1] =>
        destruct (submit_loop urlencode json_dumps ensembl sp a r u d acc s1)
          as [o2 s2] eqn:S
    end.
    apply submit_loop_counter in S as [Hrps Hin]. rewrite Hself in Hrps, Hin.
    assert (R2 : reqs_per_sec (self s2) = 15%Z /\ (0 <= req_count (self s2) <= 15)%Z).
    { split; [exact Hrps|]. unfold in_range in Hin. rewrite Hrps in Hin.
      apply Hin; cbn; lia. }
    destruct o2 as [sequences|e].
    + assert (E : self s' = self s2).
      { destruct sequences as [|x sequences].
        - now injection H as _ <-.
        - destruct (arg_output args) as [[|ch path]|].
          + now apply write_loop_self in H.
          + unfold bind at 1 in H. cbn [emit] in H.
            now apply write_loop_self in H.
          + now apply write_loop_self in H. }
      now rewrite E.
    + now injection H as _ <-.
  - injection H as _ <-. rewrite Hself. cbn. lia.
Qed.

End Counter.

(** * Further properties of the code *)

(** ** The dict that [get_regions] returns *)

Lemma dict_update_keys_in {V} (k x : string) (v : V) (d : dict V) :
  In x (map fst (dict_update k v d)) -> x = k \/ In x (map fst d).
Proof.
  induction d as [|[k' v'] d IH]; cbn [dict_update map fst In].
  - intros [H|[]]; auto.
  - destruct (String.eqb_spec k' k) as [E|E]; cbn [map fst In]; intros [H|H]; auto.
    apply IH in H. tauto.
Qed.

Lemma dict_update_nodup {V} (k : string) (v : V) (d : dict V) :
  NoDup (map fst d) -> NoDup (map fst (dict_update k v d)).
Proof.
  induction d as [|[k' v'] d IH]; cbn [dict_update map fst]; intros N.
  - repeat constructor. intros [].
  - inversion N as [|? ? Hnot Nd]; subst.
    destruct (String.eqb_spec k' k) as [E|E]; cbn [map fst].
    + subst k'. now constructor.
    + constructor; [|now apply IH].
      intros Hin. apply dict_update_keys_in in Hin as [Hin|Hin]; congruence.
Qed.

Lemma dict_update_forall {V} (Q : string * V -> Prop) (k : string) (v : V) (d : dict V) :
  Forall Q d -> Q (k, v) -> Forall Q (dict_update k v d).
Proof.
  induction d as [|[k' v'] d IH]; cbn [dict_update]; intros F HQ.
  - now repeat constructor.
  - inversion F; subst.
    destruct (k' =? k)%string; constructor; auto.
Qed.

Lemma dict_update_length {V} (k : string) (v : V) (d : dict V) :
  (List.length (dict_update k v d) <= S (List.length d))%nat.
Proof.
  induction d as [|[k' v'] d IH]; cbn [dict_update List.length]; [lia|].
  destruct (k' =? k)%string; cbn [List.length]; lia.
Qed.

Lemma fold_update_well_formed (Q : string * list string -> Prop) (bs : list (list string)) :
  (forall b, In b bs -> Q (first_region b, b)) ->
  forall d : dict (list string),
    NoDup (map fst d) -> Forall Q d ->
    let d' := fold_left (fun d b => dict_update (first_region b) b d) bs d in
    NoDup (map fst d') /\ Forall Q d'
    /\ (List.length d' <= List.length d + List.length bs)%nat.
Proof.
  induction bs as [|b bs IH]; intros HQ d N F; cbn [fold_left List.length].
  - repeat split; auto. lia.
  - destruct (IH (fun b' H => HQ b' (or_intror H))
                 (dict_update (first_region b) b d)
                 (dict_update_nodup _ _ _ N)
                 (dict_update_forall Q _ _ _ F (HQ b (or_introl eq_refl))))
      as (N' & F' & L').
    repeat split; auto.
    pose proof (dict_update_length (first_region b) b d). cbv zeta in L'. lia.
Qed.

Lemma build_regions_well_formed (reads : list row) :
  NoDup (map fst (build_regions reads))
  /\ (List.length (build_regions reads) <= Spec.batch_count (List.length reads))%nat
  /\ Forall (fun kv => fst kv = first_region (snd kv)
                       /\ In (snd kv) (batches_of (canonicalize reads))
                       /\ (1 <= List.length (snd kv) <= 50)%nat)
            (build_regions reads).
Proof.
  rewrite build_regions_fold.
  pose proof (batches_of_size (canonicalize reads)) as Sz.
  rewrite Forall_forall in Sz.
  destruct (fold_update_well_formed
              (fun kv => fst kv = first_region (snd kv)
                         /\ In (snd kv) (batches_of (canonicalize reads))
                         /\ (1 <= List.length (snd kv) <= 50)%nat)
              (batches_of (canonicalize reads))
              (fun b H => conj eq_refl (conj H (Sz b H)))
              [] (NoDup_nil _) (Forall_nil _))
    as (N & F & L).
  repeat split; auto.
  cbv zeta in L. rewrite batches_of_length, canonicalize_length in L.
  exact L.
Qed.

(** X1.  Whatever the table, a dict that [get_regions] returns is well
    formed: it is not empty, its keys differ from one another, it holds at
    most [ceil(N/50)] batches for the [N] rows that were read, and every
    batch is stored under its own first region, is one of the runs of fifty
    consecutive rows, whole and in order, and holds between one and fifty
    regions.  The state of the process is left as it was. *)
Theorem get_regions_well_formed (csv : csv_result) (s s' : state)
    (regions : dict (list string)) :
  get_regions csv s = (Return regions, s') ->
  s' = s
  /\ regions <> []
  /\ NoDup (map fst regions)
  /\ exists reads,
       (csv = Frame reads \/ exists header, csv = Frame (header :: reads))
       /\ (List.length regions <= Spec.batch_count (List.length reads))%nat
       /\ Forall (fun kv => fst kv = first_region (snd kv)
                            /\ In (snd kv) (batches_of (canonicalize reads))
                            /\ (1 <= List.length (snd kv) <= 50)%nat)
                 regions.
Proof.
  rewrite get_regions_cases. intros H.
  assert (Built : forall first rest,
    (csv = Frame (first :: rest) \/ exists header, csv = Frame (header :: first :: rest)) ->
    (Return (build_regions (first :: rest)), s) = (Return regions, s') ->
    s' = s /\ regions <> [] /\ NoDup (map fst regions)
    /\ exists reads,
         (csv = Frame reads \/ exists header, csv = Frame (header :: reads))
         /\ (List.length regions <= Spec.batch_count (List.length reads))%nat
         /\ Forall (fun kv => fst kv = first_region (snd kv)
                              /\ In (snd kv) (batches_of (canonicalize reads))
                              /\ (1 <= List.length (snd kv) <= 50)%nat)
                   regions).
  { intros first rest Hcsv E. injection E as <- <-.
    destruct (build_regions_well_formed (first :: rest)) as (N & L & F).
    repeat split; [apply build_regions_nonempty | exact N |].
    exists (first :: rest). auto. }
  destruct csv as [[|first rest]|msg|msg].
  - discriminate.
  - destruct (str_isdigit (start_cell (first :: rest) first)) eqn:D.
    + apply (Built first rest); auto.
    + destruct (is_header_token (start_cell (first :: rest) first)) eqn:T;
        [|discriminate].
      destruct rest as [|second rest]; [discriminate|].
      apply (Built second rest); [right; eauto | exact H].
  - destruct (PyStr.contains "Usecols do not match columns" msg); discriminate.
  - discriminate.
Qed.

Lemma get_regions_well_formed_witness :
  let regions := [("1:100..200", ["1:100..200"])] in
  NoDup (map fst regions)
  /\ exists reads,
       (Frame (repeat (mkRow (CStr "1") (CInt 100) (CInt 200)) 51) = Frame reads
        \/ exists header,
             Frame (repeat (mkRow (CStr "1") (CInt 100) (CInt 200)) 51)
             = Frame (header :: reads))
       /\ (List.length regions <= Spec.batch_count (List.length reads))%nat
       /\ Forall (fun kv => fst kv = first_region (snd kv)
                            /\ In (snd kv) (batches_of (canonicalize reads))
                            /\ (1 <= List.length (snd kv) <= 50)%nat)
                 regions.
Proof.
  intros regions.
  assert (Run : get_regions (Frame (repeat (mkRow (CStr "1") (CInt 100) (CInt 200)) 51))
                            start_state = (Return regions, start_state))
    by (vm_compute; reflexivity).
  exact (proj2 (proj2 (get_regions_well_formed _ _ _ _ Run))).
Defined.

(** ** The requests of a retrieval *)

Lemma requests_of_sleeps (sleeps : list event) :
  Forall (fun e => is_sleep e = true) sleeps -> requests_of sleeps = [].
Proof.
  induction 1 as [|e sleeps He _ IH]; [reflexivity|].
  destruct e; try discriminate. exact IH.
Qed.

Lemma items_received_sleeps (sleeps : list event) :
  Forall (fun e => is_sleep e = true) sleeps -> items_received sleeps = [].
Proof.
  induction 1 as [|e sleeps He _ IH]; [reflexivity|].
  destruct e; try discriminate. exact IH.
Qed.

Section Requests.

Variable urlencode : dict param -> string.
Variable json_dumps : dict (list string) -> string.
Variable ensembl : list event -> http_request -> http_response.

Variables species assembly : string.
Variables upstream downstream : Z.

(** The request that [get_sequences] makes of one entry of the dict. *)
Let batch_request (server : string) (kv : string * list string) : http_request :=
  POST (server ++ ("/sequence/region/" ++ species) ++ "?"
          ++ urlencode [("coord_system_version", PStr assembly);
                        ("expand_3prime", PInt downstream);
                        ("expand_5prime", PInt upstream)])%string
       [("Content-Type", "application/json"); ("Accept", "application/json")]
       (json_dumps [("regions", snd kv)]).

Lemma submit_loop_requests (items : dict (list string)) :
  forall (sequences : list item) (s : state) o s',
    submit_loop urlencode json_dumps ensembl species assembly items
                upstream downstream sequences s = (o, s') ->
    exists evs k,
      trace s' = (trace s ++ evs)%list
      /\ (k <= List.length items)%nat
      /\ requests_of evs = map (batch_request (server (self s))) (firstn k items)
      /\ Forall (fun e => is_output e = false) evs
      /\ (forall result, o = Return result ->
            k = List.length items
            /\ result = (sequences ++ items_received evs)%list)
      /\ (forall e, o = Raise e ->
            (1 <= k)%nat
            /\ exists before req resp,
                 evs = (before ++ [Http req resp])%list
                 /\ ((e = HTTPError resp /\ ok resp = false)
                     \/ (e = JSONDecodeError /\ ok resp = true
                         /\ decoded resp = None))).
Proof.
  induction items as [|[key value] items IH]; intros sequences s o s' H.
  - cbn in H. injection H as <- <-. exists [], 0%nat. rewrite !app_nil_r.
    split; [reflexivity|]. split; [cbn; lia|]. split; [reflexivity|].
    split; [constructor|]. split; [|discriminate].
    intros result E. injection E as <-. split; reflexivity.
  - cbn [submit_loop] in H. unfold bind at 1 in H.
    unfold get_sequences in H. cbv zeta in H.
    match type of H with
    | context [perform_rest_action _ _ _ ?e ?h ?p ?r s] =>
        destruct (perform_rest_action_run urlencode json_dumps ensembl e h p r s)
          as (s1 & sleeps & o1 & s2 & _ & Htr & Hsl & _ & P & Hsrv & _ & Hlast)
    end.
    rewrite P in H. cbv zeta in Hlast.
    match type of Hlast with
    | (trace s2 = (trace s1 ++ [Http ?rq ?rp])%list) /\ _ =>
        set (resp0 := rp) in *;
        change rq with (batch_request (server (self s)) (key, value)) in *
    end.
    destruct Hlast as [Hs2 Hend].
    assert (T2 : trace s2
                 = (trace s ++ sleeps
                      ++ [Http (batch_request (server (self s)) (key, value)) resp0])%list)
      by (rewrite Hs2, Htr, <- app_assoc; reflexivity).
    assert (Rq : forall rest,
      requests_of (sleeps ++ Http (batch_request (server (self s)) (key, value)) resp0
                     :: rest)%list
      = batch_request (server (self s)) (key, value) :: requests_of rest).
    { intros rest. unfold requests_of. rewrite flat_map_app.
      fold (requests_of sleeps). now rewrite (requests_of_sleeps _ Hsl). }
    assert (NoOut : Forall (fun e => is_output e = false)
                           (sleeps ++ [Http (batch_request (server (self s)) (key, value))
                                            resp0])%list)
      by (apply Forall_app; split;
          [now apply sleeps_no_output | repeat constructor]).
    destruct Hend as [(Hok & Ho & _) | [(Hok & Hnone & Ho & _) | (Hok & d & Hd & Ho & _)]];
      subst o1.
    + injection H as <- <-. eexists. exists 1%nat.
      split; [exact T2|]. cbn [List.length firstn map].
      split; [lia|]. split; [now rewrite Rq|]. split; [exact NoOut|].
      split; [discriminate|].
      intros e E. injection E as <-. split; [lia|].
      exists sleeps. do 2 eexists. split; [reflexivity|]. left. auto.
    + injection H as <- <-. eexists. exists 1%nat.
      split; [exact T2|]. cbn [List.length firstn map].
      split; [lia|]. split; [now rewrite Rq|]. split; [exact NoOut|].
      split; [discriminate|].
      intros e E. injection E as <-. split; [lia|].
      exists sleeps. do 2 eexists. split; [reflexivity|]. right. auto.
    + apply IH in H as (evs & k & Tr & Hk & Hreq & F & Hret & Hraise).
      rewrite Hsrv in Hreq.
      exists (sleeps ++ Http (batch_request (server (self s)) (key, value)) resp0
                :: evs)%list, (S k).
      split; [rewrite Tr, T2, <- !app_assoc; reflexivity|].
      cbn [List.length firstn map].
      split; [lia|]. split; [now rewrite Rq, Hreq|].
      split.
      { change (sleeps ++ Http (batch_request (server (self s)) (key, value)) resp0
                  :: evs)%list
          with (sleeps ++ [Http (batch_request (server (self s)) (key, value)) resp0]
                  ++ evs)%list.
        rewrite app_assoc. apply Forall_app. split; assumption. }
      split.
      * intros result E. destruct (Hret result E) as [-> ->]. split; [reflexivity|].
        unfold items_received at 2. rewrite flat_map_app.
        fold (items_received sleeps). rewrite (items_received_sleeps _ Hsl).
        cbn [flat_map app]. fold (items_received evs). rewrite Hd.
        now rewrite <- app_assoc.
      * intros e E. destruct (Hraise e E) as (Hk1 & before & req & resp & -> & He).
        split; [lia|].
        exists (sleeps ++ Http (batch_request (server (self s)) (key, value)) resp0
                  :: before)%list, req, resp.
        split; [now rewrite <- app_assoc|]. exact He.
Qed.

(** X3.  [submit_regions] sends one POST for every batch of the dict, in
    the order of the dict, each to the sequence endpoint of the species with
    the assembly and the two extensions in the query and the batch under
    [regions] in the body; it sends nothing else and writes nothing.  When
    it returns it has gone through the whole dict, and what it returns is
    what the answers held, in the order of arrival.  When it raises an
    [HTTPError], the answer that the error carries has a status from 400
    to 599 and is the last thing that happened; when it raises a
    [JSONDecodeError], the last thing that happened is an answer with
    another status that did not decode: no batch is sent after a failure. *)
Theorem submit_regions_requests (regions : dict (list string)) (s : state) :
  let run := submit_regions urlencode json_dumps ensembl species assembly regions
               upstream downstream s in
  exists evs k,
    trace (snd run) = (trace s ++ evs)%list
    /\ (k <= List.length regions)%nat
    /\ requests_of evs = map (batch_request (server (self s))) (firstn k regions)
    /\ outputs evs = []
    /\ (forall result, fst run = Return result ->
          k = List.length regions /\ result = items_received evs)
    /\ (forall resp, fst run = Raise (HTTPError resp) ->
          (400 <= status_code resp < 600)%Z
          /\ exists before req, evs = (before ++ [Http req resp])%list)
    /\ (fst run = Raise JSONDecodeError ->
          exists before req resp,
            evs = (before ++ [Http req resp])%list
            /\ ~ (400 <= status_code resp < 600)%Z /\ decoded resp = None).
Proof.
  intros run.
  destruct (submit_loop_requests regions [] s (fst run) (snd run)
              (surjective_pairing _))
    as (evs & k & Tr & Hk & Hreq & F & Hret & Hraise).
  exists evs, k.
  split; [exact Tr|]. split; [exact Hk|]. split; [exact Hreq|].
  split; [|split; [exact Hret|split]].
  - unfold outputs. clear - F.
    induction F as [|e evs He _ IH]; [reflexivity|].
    cbn [filter]. now rewrite He.
  - intros resp E.
    destruct (Hraise _ E) as (_ & before & req & resp' & Hevs & [[He Hok] | [He _]]);
      [|discriminate].
    injection He as <-. split; [now apply ok_status | eauto].
  - intros E.
    destruct (Hraise _ E) as (_ & before & req & resp & Hevs & [[He _] | (_ & Hok & Hd)]);
      [discriminate|].
    exists before, req, resp. split; [exact Hevs|]. split; [|exact Hd].
    rewrite <- ok_status. congruence.
Qed.

End Requests.

(** ** What a retrieval writes *)

Lemma get_regions_return (csv : csv_result) (s s' : state) (regions : dict (list string)) :
  get_regions csv s = (Return regions, s') -> s' = s.
Proof.
  rewrite get_regions_cases. intros H.
  destruct csv as [[|first rest]|msg|msg].
  - discriminate.
  - destruct (str_isdigit _); [now injection H|].
    destruct (is_header_token _); [|discriminate].
    destruct rest; [discriminate | now injection H].
  - destruct (PyStr.contains "Usecols do not match columns" msg); discriminate.
  - discriminate.
Qed.

Lemma outputs_app (a b : list event) : outputs (a ++ b) = (outputs a ++ outputs b)%list.
Proof. apply filter_app. Qed.

Lemma received_app (a b : list event) : received (a ++ b) = (received a ++ received b)%list.
Proof. apply flat_map_app. Qed.

Lemma outputs_none (evs : list event) :
  Forall (fun e => is_output e = false) evs -> outputs evs = [].
Proof.
  induction 1 as [|e evs He _ IH]; [reflexivity|].
  unfold outputs in *. cbn [filter]. now rewrite He.
Qed.

Lemma written_records (dest : destination) (rs : list sequence) :
  outputs (map (fun r => Out dest (record_text r)) rs)
  = map (fun r => Out dest (record_text r)) rs
  /\ received (map (fun r => Out dest (record_text r)) rs) = [].
Proof.
  induction rs as [|r rs [IH1 IH2]]; [split; reflexivity|].
  split.
  - unfold outputs in *. cbn [map filter is_output]. now rewrite IH1.
  - exact IH2.
Qed.

(** The records behind a list of elements that are all records. *)
Lemma received_records (evs : list event) :
  forall rs, items_received evs = map Rec rs -> received evs = rs.
Proof.
  induction evs as [|e evs IH]; intros rs H.
  - destruct rs; [reflexivity | discriminate].
  - destruct e as [d|req resp|path|dest text]; try (apply IH; exact H).
    unfold items_received in H. unfold received.
    cbn [flat_map] in *. fold (items_received evs) in H. fold (received evs).
    destruct (decoded resp) as [doc|]; [|apply IH; exact H].
    symmetry in H. apply map_eq_app in H as (rs1 & rs2 & -> & H1 & H2).
    rewrite (IH rs2 (eq_sym H2)). f_equal.
    destruct doc as [l|versions|l]; cbn [items_of records_of] in *.
    + destruct rs1 as [|r [|r' rs1]]; discriminate.
    + destruct rs1 as [|r [|r' rs1]]; discriminate.
    + clear - H1. revert rs1 H1.
      induction l as [|x l IHl]; intros [|r rs1] H1; try discriminate; [reflexivity|].
      cbn [map] in H1. injection H1 as -> H1. f_equal. now apply IHl.
Qed.

(** The loop that writes returns only over records, and then it has written
    the two lines of each, in order. *)
Lemma write_loop_success (dest : destination) (sequences : list item) :
  forall s s',
    for_each sequences (fun sequence =>
      text <- format_record sequence ;;
      emit (Out dest (text ++ PyStr.newline)%string)) s = (Return tt, s') ->
    exists rs,
      sequences = map Rec rs
      /\ trace s' = (trace s ++ map (fun r => Out dest (record_text r)) rs)%list.
Proof.
  induction sequences as [|[r|k] sequences IH]; intros s s' H.
  - injection H as <-. exists []. now rewrite app_nil_r.
  - cbn [for_each] in H. unfold bind at 1 in H. cbn in H.
    apply IH in H as (rs & -> & Tr). exists (r :: rs). split; [reflexivity|].
    cbn [trace] in Tr. rewrite Tr, <- app_assoc. reflexivity.
  - discriminate.
Qed.

Section Written.

Variable urlencode : dict param -> string.
Variable json_dumps : dict (list string) -> string.
Variable ensembl : list event -> http_request -> http_response.

(** X4.  When [retrieve_seq] returns, it has sent one request for every
    batch that [get_regions] made of the table, and what it has written is
    the records it received, in the order of arrival, each as a line with
    [>] and the id and a line with the sequence: into the file of
    [--output], opened once before the first record, or to the standard
    output when there is no such file.  When no record came, it has written
    nothing and opened no file. *)
Theorem retrieve_seq_writes_records (args : arguments) (csv : csv_result)
    (s s' : state) (evs : list event) :
  retrieve_seq urlencode json_dumps ensembl args csv s = (Return tt, s') ->
  trace s' = (trace s ++ evs)%list ->
  (exists regions,
     get_regions csv (mkState default_client (clock s) (trace s))
     = (Return regions, mkState default_client (clock s) (trace s))
     /\ List.length (requests_of evs) = List.length regions)
  /\ outputs evs
     = match received evs with
       | [] => []
       | _ :: _ =>
           (match destination_of args with
            | File path => [Open path]
            | Stdout => []
            end ++ map (fun r => Out (destination_of args) (record_text r))
                       (received evs))%list
       end.
Proof.
  intros H Tr.
  unfold retrieve_seq in H. unfold bind at 1 in H. cbn [set_self] in H.
  destruct (get_regions_run csv (mkState default_client (clock s) (trace s)))
    as (o1 & s1 & outs1 & G & _ & T1 & _ & R1).
  unfold bind at 1 in H. rewrite G in H. cbn [trace] in T1.
  destruct o1 as [regions|e]; [|discriminate].
  pose proof (get_regions_return _ _ _ _ G) as ->.
  unfold bind at 1 in H. unfold submit_regions in H.
  match type of H with
  | context [submit_loop _ _ _ ?sp ?a ?r ?u ?d ?acc ?st] =>
      destruct (submit_loop urlencode json_dumps ensembl sp a r u d acc st)
        as [o2 s2] eqn:S
  end.
  apply submit_loop_requests in S as (evs2 & k & T2 & _ & Hreq & F2 & Hret & _).
  cbn [trace] in T2.
  destruct o2 as [sequences|e]; [|discriminate].
  destruct (Hret sequences eq_refl) as [-> Hseq]. cbn [app] in Hseq.
  rewrite firstn_all in Hreq.
  assert (Len : List.length (requests_of evs2) = List.length regions)
    by (rewrite Hreq; apply length_map).
  assert (Phase : exists rs outs,
            sequences = map Rec rs
            /\ trace s' = (trace s2 ++ outs)%list
            /\ requests_of outs = []
            /\ received outs = []
            /\ outputs outs
               = match rs with
                 | [] => []
                 | _ :: _ =>
                     (match destination_of args with
                      | File path => [Open path]
                      | Stdout => []
                      end ++ map (fun r => Out (destination_of args) (record_text r)) rs)%list
                 end).
  { assert (Quiet : forall dest rs,
              requests_of (map (fun r => Out dest (record_text r)) rs) = [])
      by (intros dest rs; induction rs; auto).
    destruct sequences as [|x sequences].
    - injection H as <-. exists [], []. rewrite app_nil_r. auto.
    - unfold destination_of.
      destruct (arg_output args) as [[|ch path]|].
      + apply write_loop_success in H as (rs & E & T3).
        destruct (written_records Stdout rs) as [W1 W2].
        exists rs, (map (fun r => Out Stdout (record_text r)) rs).
        repeat split; auto. destruct rs; [discriminate | exact W1].
      + unfold bind at 1 in H. cbn [emit] in H.
        apply write_loop_success in H as (rs & E & T3). cbn [trace] in T3.
        destruct (written_records (File (String ch path)) rs) as [W1 W2].
        exists rs, (Open (String ch path)
                      :: map (fun r => Out (File (String ch path)) (record_text r)) rs).
        repeat split; auto.
        * rewrite T3, <- app_assoc. reflexivity.
        * cbn [requests_of flat_map app]. apply Quiet.
        * destruct rs; [discriminate|].
          unfold outputs in *. cbn [filter is_output app]. now rewrite W1.
      + apply write_loop_success in H as (rs & E & T3).
        destruct (written_records Stdout rs) as [W1 W2].
        exists rs, (map (fun r => Out Stdout (record_text r)) rs).
        repeat split; auto. destruct rs; [discriminate | exact W1]. }
  destruct Phase as (rs & outs & E & T3 & Q3 & R3 & O3).
  rewrite T2, <- app_assoc, Tr in T3. apply app_inv_head in T3. subst evs.
  rewrite E in Hseq. symmetry in Hseq. apply received_records in Hseq.
  split.
  - exists regions. split; [exact G|].
    unfold requests_of in *. rewrite flat_map_app, Q3, app_nil_r. exact Len.
  - rewrite outputs_app, received_app, (outputs_none _ F2), R3, app_nil_r, Hseq.
    exact O3.
Qed.

End Written.

Lemma retrieve_seq_writes_records_witness :
  let run := retrieve_seq Example.urlencode Example.json_dumps Example.healthy
               Example.args (Frame (Example.rows 120)) start_state in
  (exists regions,
     get_regions (Frame (Example.rows 120)) start_state = (Return regions, start_state)
     /\ List.length (requests_of (trace (snd run))) = List.length regions)
  /\ outputs (trace (snd run))
     = match received (trace (snd run)) with
       | [] => []
       | _ :: _ =>
           (match destination_of Example.args with
            | File path => [Open path]
            | Stdout => []
            end ++ map (fun r => Out (destination_of Example.args) (record_text r))
                       (received (trace (snd run))))%list
       end.
Proof.
  intros run.
  assert (Run : run = (Return tt, snd run)) by (vm_compute; reflexivity).
  exact (retrieve_seq_writes_records Example.urlencode Example.json_dumps
           Example.healthy Example.args (Frame (Example.rows 120)) start_state
           (snd run) (trace (snd run)) Run eq_refl).
Defined.

(** ** Time and the rate limit over a run *)

Lemma rate_limit_cases (s : state) :
  let c := self s in
  let delta := (clock s - last_req c)%Q in
  ((req_count c < reqs_per_sec c)%Z /\ rate_limit s = (Return tt, s))
  \/ ((reqs_per_sec c <= req_count c)%Z /\ (delta < 1)%Q
      /\ rate_limit s =
         (Return tt,
          mkState (mkClient (server c) (reqs_per_sec c) 0 (clock s + (1 - delta))%Q)
                  (clock s + (1 - delta))%Q
                  (trace s ++ [Sleep (1 - delta)%Q])%list))
  \/ ((reqs_per_sec c <= req_count c)%Z /\ (1 <= delta)%Q
      /\ rate_limit s =
         (Return tt,
          mkState (mkClient (server c) (reqs_per_sec c) 0 (clock s)) (clock s) (trace s))).
Proof.
  intros c delta. unfold rate_limit, bind, get_self. fold c.
  rewrite Z.geb_leb.
  destruct (reqs_per_sec c <=? req_count c)%Z eqn:E.
  - apply Z.leb_le in E. cbn [time_time]. fold delta.
    destruct (Qlt_le_dec delta 1) as [D|D].
    + right; left. rewrite (Qlt_bool_true _ _ D). auto.
    + right; right. rewrite (Qlt_bool_false _ _ D). auto.
  - apply Z.leb_gt in E. left. auto.
Qed.

Section Time.

Variable urlencode : dict param -> string.
Variable json_dumps : dict (list string) -> string.
Variable ensembl : list event -> http_request -> http_response.

(** The state after [perform_rest_action], whatever its outcome: the state
    after the rate limit, with the round trip added to the clock and to the
    trace, and the counter kept or raised by one. *)
Lemma perform_rest_action_state (endpoint : string) (hdrs : list (string * string))
    (params : dict param) (regions : option (dict (list string))) (s : state) o s' :
  perform_rest_action urlencode json_dumps ensembl endpoint hdrs params regions s
  = (o, s') ->
  exists s1 req,
    rate_limit s = (Return tt, s1)
    /\ trace s' = (trace s1 ++ [Http req (ensembl (trace s1) req)])%list
    /\ clock s' = (clock s1 + elapsed (ensembl (trace s1) req))%Q
    /\ last_req (self s') = last_req (self s1)
    /\ reqs_per_sec (self s') = reqs_per_sec (self s1)
    /\ (req_count (self s') = req_count (self s1)
        \/ req_count (self s') = (req_count (self s1) + 1)%Z).
Proof.
  destruct (rate_limit_run s) as (s1 & sleeps & R & _).
  unfold perform_rest_action. unfold bind at 1. rewrite R.
  unfold bind at 1. cbn [get_self].
  set (url := (server (self s1) ++ _)%string).
  intros H. exists s1.
  assert (Sent : forall req,
    (request <- send ensembl req ;;
     (if negb (ok request) then raise_for_status request ;; sys_exit 0 else ret tt) ;;
     data <- json request ;;
     c <- get_self ;;
     set_req_count (req_count c + 1) ;;
     ret data) s1 = (o, s') ->
    exists req0,
      (Return tt, s1) = (Return tt, s1)
      /\ trace s' = (trace s1 ++ [Http req0 (ensembl (trace s1) req0)])%list
      /\ clock s' = (clock s1 + elapsed (ensembl (trace s1) req0))%Q
      /\ last_req (self s') = last_req (self s1)
      /\ reqs_per_sec (self s') = reqs_per_sec (self s1)
      /\ (req_count (self s') = req_count (self s1)
          \/ req_count (self s') = (req_count (self s1) + 1)%Z)).
  { intros req E. exists req. unfold bind at 1 in E. unfold send in E.
    set (resp := ensembl (trace s1) req) in *.
    unfold bind at 1 in E.
    destruct (ok resp) eqn:Eok.
    - cbn [negb ret] in E. unfold bind at 1, json in E.
      destruct (decoded resp) as [d|].
      + cbn in E. injection E as <- <-. cbn. repeat split; auto.
      + cbn in E. injection E as <- <-. cbn. repeat split; auto.
    - cbn [negb] in E. unfold bind at 1, raise_for_status in E.
      unfold ok in Eok. apply negb_false_iff in Eok. rewrite Eok in E.
      cbn in E. injection E as <- <-. cbn. repeat split; auto. }
  destruct regions as [[|b body]|]; exact (Sent _ H).
Qed.

(** The requests of one call to [perform_rest_action]: a state property
    that a call carries from before to after carries through the loop of
    [submit_regions], and what holds of the events of a call holds of the
    events of the loop. *)
Lemma submit_loop_invariant (I : nat -> state -> Prop) (G : event -> Prop)
    (species assembly : string) (upstream downstream : Z) :
  (forall n endpoint hdrs params regions s o s',
     I (S n) s ->
     perform_rest_action urlencode json_dumps ensembl endpoint hdrs params regions s
     = (o, s') ->
     I n s' /\ exists evs, trace s' = (trace s ++ evs)%list /\ Forall G evs) ->
  forall items sequences s o s',
    I (List.length items) s ->
    submit_loop urlencode json_dumps ensembl species assembly items
                upstream downstream sequences s = (o, s') ->
    exists evs, trace s' = (trace s ++ evs)%list /\ Forall G evs.
Proof.
  intros Step. induction items as [|[key value] items IH]; intros sequences s o s' HI H.
  - cbn in H. injection H as <- <-. exists []. now rewrite app_nil_r.
  - cbn [submit_loop] in H. unfold bind at 1 in H.
    destruct (get_sequences urlencode json_dumps ensembl species assembly
                [("regions", value)] upstream downstream s) as [o1 s1] eqn:E.
    unfold get_sequences in E. cbv zeta in E.
    destruct (Step _ _ _ _ _ _ _ _ HI E) as (HI1 & evs1 & T1 & F1).
    destruct o1 as [d|e].
    + destruct (IH _ _ _ _ HI1 H) as (evs2 & T2 & F2).
      exists (evs1 ++ evs2)%list. split.
      * now rewrite T2, T1, <- app_assoc.
      * apply Forall_app; auto.
    + injection H as <- <-. eauto.
Qed.

(** The three parts of the trace of [retrieve_seq]: what [get_regions]
    printed, what the loop of [submit_regions] did, what was written. *)
Lemma retrieve_seq_phases (args : arguments) (csv : csv_result) (s : state) o s' :
  retrieve_seq urlencode json_dumps ensembl args csv s = (o, s') ->
  let s0 := mkState default_client (clock s) (trace s) in
  exists outs1 evs2 outs3,
    trace s' = (trace s ++ outs1 ++ evs2 ++ outs3)%list
    /\ Forall (fun e => is_output e = true) outs1
    /\ Forall (fun e => is_output e = true) outs3
    /\ ((evs2 = [] /\ exists e, fst (get_regions csv s0) = Raise e)
        \/ exists regions sequences o2 s2,
             get_regions csv s0 = (Return regions, s0)
             /\ submit_loop urlencode json_dumps ensembl (arg_species args)
                  (arg_assembly args) regions (arg_upstream args)
                  (arg_downstream args) sequences s0 = (o2, s2)
             /\ trace s2 = (trace s ++ evs2)%list).
Proof.
  intros H s0.
  unfold retrieve_seq in H. unfold bind at 1 in H. cbn [set_self] in H. fold s0 in H.
  unfold bind at 1 in H.
  destruct (get_regions csv s0) as [o1 s1] eqn:G.
  destruct o1 as [regions|e].
  - pose proof (get_regions_return _ _ _ _ G) as ->.
    unfold bind at 1 in H. unfold submit_regions in H.
    match type of H with
    | context [submit_loop _ _ _ ?sp ?a ?r ?u ?d ?acc s0] =>
        destruct (submit_loop urlencode json_dumps ensembl sp a r u d acc s0)
          as [o2 s2] eqn:S
    end.
    destruct (submit_loop_requests _ _ _ _ _ _ _ _ _ _ _ _ S)
      as (evs2 & k & T2 & _). cbn [trace] in T2.
    assert (Out : exists outs3, trace s' = (trace s2 ++ outs3)%list
                                /\ Forall (fun e => is_output e = true) outs3).
    { assert (Loop : forall dest items st o3 s3,
        for_each items (fun sequence =>
          text <- format_record sequence ;;
          emit (Out dest (text ++ PyStr.newline)%string)) st = (o3, s3) ->
        exists outs, trace s3 = (trace st ++ outs)%list
                     /\ Forall (fun e => is_output e = true) outs).
      { intros dest. induction items as [|[r|key] items IH]; intros st o3 s3 E.
        - injection E as <- <-. exists []. now rewrite app_nil_r.
        - cbn [for_each] in E. unfold bind at 1 in E. cbn in E.
          apply IH in E as (outs & T & F). cbn [trace] in T.
          eexists. split; [rewrite T, <- app_assoc; reflexivity|].
          constructor; [reflexivity | exact F].
        - injection E as <- <-. exists []. now rewrite app_nil_r. }
      destruct o2 as [sequences|e].
      - destruct sequences as [|x sequences].
        + injection H as _ <-. exists []. now rewrite app_nil_r.
        + destruct (arg_output args) as [[|ch path]|].
          * now apply Loop in H.
          * unfold bind at 1 in H. cbn [emit] in H.
            apply Loop in H as (outs & T & F). cbn [trace] in T.
            eexists. split; [rewrite T, <- app_assoc; reflexivity|].
            constructor; [reflexivity | exact F].
          * now apply Loop in H.
      - injection H as _ <-. exists []. now rewrite app_nil_r. }
    destruct Out as (outs3 & T3 & F3).
    exists [], evs2, outs3. cbn [app].
    split; [rewrite T3, T2, <- app_assoc; reflexivity|].
    split; [constructor|]. split; [exact F3|].
    right. exists regions, [], o2, s2. auto.
  - injection H as _ <-.
    assert (Outs : exists outs1, trace s1 = (trace s ++ outs1)%list
                                 /\ Forall (fun e => is_output e = true) outs1).
    { destruct (get_regions_run csv s0) as (o1 & s1' & outs & G' & _ & T & _).
      rewrite G in G'. injection G' as _ <-. cbn [trace] in T.
      exists outs. split; [exact T|].
      revert G T. rewrite get_regions_cases.
      assert (Same : forall o0 : outcome (dict (list string)),
                (o0, s0) = (Raise e, s1) -> trace s1 = (trace s ++ outs)%list ->
                Forall (fun e => is_output e = true) outs).
      { intros o0 E T. injection E as _ <-. unfold s0 in T. cbn [trace] in T.
        rewrite <- (app_nil_r (trace s)) in T at 1.
        apply app_inv_head in T. subst outs. constructor. }
      destruct csv as [[|first rest]|msg|msg]; try apply Same.
      - destruct (str_isdigit _); [apply Same|].
        destruct (is_header_token _); apply Same.
      - destruct (PyStr.contains "Usecols do not match columns" msg); [|apply Same].
        intros G T. injection G as _ <-. cbn [trace] in T.
        apply app_inv_head in T. subst outs. repeat constructor. }
    destruct Outs as (outs1 & T1 & F1).
    exists outs1, [], []. rewrite !app_nil_r.
    split; [exact T1|]. split; [exact F1|]. split; [constructor|].
    left. split; [reflexivity|]. exists e. reflexivity.
Qed.

End Time.

Lemma get_regions_built (csv : csv_result) (s s' : state) (regions : dict (list string)) :
  get_regions csv s = (Return regions, s') ->
  exists reads,
    (csv = Frame reads \/ exists header, csv = Frame (header :: reads))
    /\ regions = build_regions reads.
Proof.
  rewrite get_regions_cases. intros H.
  destruct csv as [[|first rest]|msg|msg].
  - discriminate.
  - destruct (str_isdigit _); [injection H as <- _; eauto|].
    destruct (is_header_token _); [|discriminate].
    destruct rest; [discriminate|]. injection H as <- _. eauto.
  - destruct (PyStr.contains "Usecols do not match columns" msg); discriminate.
  - discriminate.
Qed.

Lemma outputs_not_sleeps (outs : list event) (G : event -> Prop) :
  (forall e, is_output e = true -> G e) ->
  Forall (fun e => is_output e = true) outs -> Forall G outs.
Proof.
  intros HG. apply Forall_impl. exact HG.
Qed.

Section Pauses.

Variable urlencode : dict param -> string.
Variable json_dumps : dict (list string) -> string.
Variable ensembl : list event -> http_request -> http_response.

(** No round trip takes a negative time. *)
Hypothesis latency : forall t req, (0 <= elapsed (ensembl t req))%Q.

(** The pause of an event, if it is one, is more than nothing and at most
    a second. *)
Let short_pause (e : event) : Prop :=
  match e with
  | Sleep d => (0 < d)%Q /\ (d <= 1)%Q
  | _ => True
  end.

Lemma perform_rest_action_pause (endpoint : string) (hdrs : list (string * string))
    (params : dict param) (regions : option (dict (list string))) (s : state) o s' :
  (last_req (self s) <= clock s)%Q ->
  perform_rest_action urlencode json_dumps ensembl endpoint hdrs params regions s
  = (o, s') ->
  (last_req (self s') <= clock s')%Q
  /\ exists evs, trace s' = (trace s ++ evs)%list /\ Forall short_pause evs.
Proof.
  intros Inv H.
  destruct (perform_rest_action_state urlencode json_dumps ensembl _ _ _ _ _ _ _ H)
    as (s1 & req & R & Tr & Ck & Lr & _).
  pose proof (latency (trace s1) req) as Lat.
  destruct (rate_limit_cases s) as [(_ & R') | [(_ & D & R') | (_ & D & R')]];
    rewrite R' in R; injection R as <-.
  - split; [rewrite Ck, Lr; lra|].
    eexists. split; [exact Tr|]. repeat constructor.
  - cbn [self clock trace last_req] in *.
    split; [rewrite Ck, Lr; lra|].
    eexists. split; [rewrite Tr, <- app_assoc; reflexivity|].
    constructor; [cbn; split; lra | repeat constructor].
  - cbn [self clock trace last_req] in *.
    split; [rewrite Ck, Lr; lra|].
    eexists. split; [exact Tr|]. repeat constructor.
Qed.

(** X5.  Over a whole run of [retrieve_seq] that starts at a time that is
    not negative, against a server whose answers take no negative time,
    every pause of the rate limit lasts more than nothing and at most one
    second: [time.sleep] is never called with zero or a negative number,
    and never with more than 1. *)
Theorem pauses_are_short (args : arguments) (csv : csv_result) (s : state) o s'
    (evs : list event) :
  (0 <= clock s)%Q ->
  retrieve_seq urlencode json_dumps ensembl args csv s = (o, s') ->
  trace s' = (trace s ++ evs)%list ->
  Forall (fun e => match e with
                   | Sleep d => (0 < d)%Q /\ (d <= 1)%Q
                   | _ => True
                   end) evs.
Proof.
  intros Hclock H Tr.
  destruct (retrieve_seq_phases urlencode json_dumps ensembl _ _ _ _ _ H)
    as (outs1 & evs2 & outs3 & T & F1 & F3 & Hmid).
  rewrite Tr in T. apply app_inv_head in T. subst evs.
  assert (Outs : forall outs, Forall (fun e => is_output e = true) outs ->
                              Forall short_pause outs).
  { intros outs. apply outputs_not_sleeps.
    intros [d| | |]; cbn; auto; discriminate. }
  apply Forall_app. split; [now apply Outs|].
  apply Forall_app. split; [|now apply Outs].
  destruct Hmid as [[-> _] | (regions & sequences & o2 & s2 & _ & S & T2)];
    [constructor|].
  destruct (submit_loop_invariant urlencode json_dumps ensembl
              (fun _ st => (last_req (self st) <= clock st)%Q) short_pause
              _ _ _ _
              (fun n e h p r st o' st' => perform_rest_action_pause e h p r st o' st')
              regions sequences
              (mkState default_client (clock s) (trace s)) o2 s2 Hclock S)
    as (evs2' & T2' & F2).
  cbn [trace] in T2'. rewrite T2 in T2'. apply app_inv_head in T2'. now subst evs2'.
Qed.

(** The counter and the anchor of a fresh client while no pause can come:
    before the first reset the anchor is the origin of time, which lies a
    second and more behind, and after it fewer than fifteen requests are
    left. *)
Let early (n : nat) (s : state) : Prop :=
  reqs_per_sec (self s) = 15%Z
  /\ (0 <= req_count (self s))%Z
  /\ ((last_req (self s) = 0%Q /\ (1 <= clock s)%Q
       /\ (req_count (self s) + Z.of_nat n <= 30)%Z /\ (req_count (self s) <= 15)%Z)
      \/ (req_count (self s) + Z.of_nat n <= 15)%Z).

Lemma perform_rest_action_early (n : nat) (endpoint : string)
    (hdrs : list (string * string)) (params : dict param)
    (regions : option (dict (list string))) (s : state) o s' :
  early (S n) s ->
  perform_rest_action urlencode json_dumps ensembl endpoint hdrs params regions s
  = (o, s') ->
  early n s'
  /\ exists evs, trace s' = (trace s ++ evs)%list
                 /\ Forall (fun e => is_sleep e = false) evs.
Proof.
  intros (Hrps & Hpos & Hcase) H.
  destruct (perform_rest_action_state urlencode json_dumps ensembl _ _ _ _ _ _ _ H)
    as (s1 & req & R & Tr & Ck & Lr & Rp & Cnt).
  pose proof (latency (trace s1) req) as Lat.
  unfold early.
  destruct (rate_limit_cases s) as [(Hlt & R') | [(Hge & D & R') | (Hge & D & R')]];
    rewrite R' in R; injection R as <-.
  - split; [|eexists; split; [exact Tr | repeat constructor]].
    rewrite Rp, Lr, Ck. split; [exact Hrps|]. split; [lia|].
    destruct Hcase as [(L0 & C1 & Hn & H15) | Hn].
    + left. rewrite L0. repeat split; auto; try lra; lia.
    + right. lia.
  - exfalso. destruct Hcase as [(L0 & C1 & Hn & H15) | Hn]; [|lia].
    rewrite L0 in D. lra.
  - cbn [self clock trace last_req reqs_per_sec req_count] in *.
    split; [|eexists; split; [exact Tr | repeat constructor]].
    rewrite Rp. split; [exact Hrps|]. split; [lia|].
    destruct Hcase as [(L0 & C1 & Hn & H15) | Hn]; [|lia].
    right. lia.
Qed.

(** X6.  A fresh client never pauses before its 31st request: its first
    reset, at the 16th request, measures the time since the origin of the
    clock and finds it long.  So a run of [retrieve_seq] over a table of at
    most 1500 rows, which makes at most 30 batches, goes without a pause
    however fast the server answers. *)
Theorem no_pause_within_thirty_requests (args : arguments) (reads : list row)
    (s : state) o s' (evs : list event) :
  (1 <= clock s)%Q ->
  (List.length reads <= 1500)%nat ->
  retrieve_seq urlencode json_dumps ensembl args (Frame reads) s = (o, s') ->
  trace s' = (trace s ++ evs)%list ->
  Forall (fun e => is_sleep e = false) evs.
Proof.
  intros Hclock Hlen H Tr.
  destruct (retrieve_seq_phases urlencode json_dumps ensembl _ _ _ _ _ H)
    as (outs1 & evs2 & outs3 & T & F1 & F3 & Hmid).
  rewrite Tr in T. apply app_inv_head in T. subst evs.
  assert (Outs : forall outs, Forall (fun e => is_output e = true) outs ->
                              Forall (fun e => is_sleep e = false) outs).
  { intros outs. apply outputs_not_sleeps.
    intros [d| | |]; cbn; auto; discriminate. }
  apply Forall_app. split; [now apply Outs|].
  apply Forall_app. split; [|now apply Outs].
  destruct Hmid as [[-> _] | (regions & sequences & o2 & s2 & G & S & T2)];
    [constructor|].
  assert (Few : (List.length regions <= 30)%nat).
  { destruct (get_regions_built _ _ _ _ G) as (reads' & Hcsv & ->).
    destruct (build_regions_well_formed reads') as (_ & L & _).
    assert (Hl : (List.length reads' <= 1500)%nat).
    { destruct Hcsv as [E | [header E]]; injection E as ->; cbn [List.length] in *; lia. }
    pose proof (proj1 (batch_count_lt (List.length reads') 30)). lia. }
  destruct (submit_loop_invariant urlencode json_dumps ensembl
              early (fun e => is_sleep e = false)
              (arg_species args) (arg_assembly args)
              (arg_upstream args) (arg_downstream args)
              (fun n e h p r st o' st' => perform_rest_action_early n e h p r st o' st')
              regions sequences
              (mkState default_client (clock s) (trace s)) o2 s2)
    as (evs2' & T2' & F2).
  - unfold early. cbn. split; [reflexivity|]. split; [lia|]. left.
    repeat split; auto; lia.
  - exact S.
  - cbn [trace] in T2'. rewrite T2 in T2'. apply app_inv_head in T2'. now subst evs2'.
Qed.

End Pauses.

Lemma pauses_are_short_witness :
  let run := retrieve_seq Example.urlencode Example.json_dumps Example.fast
               Example.args (Frame (Example.rows 1501)) Example.at_noon in
  existsb is_sleep (trace (snd run)) = true
  /\ Forall (fun e => match e with
                      | Sleep d => (0 < d)%Q /\ (d <= 1)%Q
                      | _ => True
                      end) (trace (snd run)).
Proof.
  intros run.
  assert (Lat : forall t req, (0 <= elapsed (Example.fast t req))%Q)
    by (intros; cbn; discriminate).
  assert (Start : (0 <= clock Example.at_noon)%Q) by (cbn; discriminate).
  split; [vm_compute; reflexivity|].
  exact (pauses_are_short Example.urlencode Example.json_dumps Example.fast Lat
           Example.args (Frame (Example.rows 1501)) Example.at_noon
           (fst run) (snd run) (trace (snd run))
           Start (surjective_pairing _) eq_refl).
Defined.

Lemma no_pause_within_thirty_requests_witness :
  let run := retrieve_seq Example.urlencode Example.json_dumps Example.fast
               Example.args (Frame (Example.rows 1500)) Example.at_noon in
  List.length (requests_of (trace (snd run))) = 30%nat
  /\ Forall (fun e => is_sleep e = false) (trace (snd run)).
Proof.
  intros run.
  assert (Lat : forall t req, (0 <= elapsed (Example.fast t req))%Q)
    by (intros; cbn; discriminate).
  assert (Start : (1 <= clock Example.at_noon)%Q) by (cbn; discriminate).
  assert (Rows : (List.length (Example.rows 1500) <= 1500)%nat)
    by (vm_compute; reflexivity).
  split; [vm_compute; reflexivity|].
  exact (no_pause_within_thirty_requests Example.urlencode Example.json_dumps
           Example.fast Lat Example.args (Example.rows 1500) Example.at_noon
           (fst run) (snd run) (trace (snd run))
           Start Rows (surjective_pairing _) eq_refl).
Defined.

(** ** The two catalogue commands and a single request *)

Section Queries.

Variable urlencode : dict param -> string.
Variable json_dumps : dict (list string) -> string.
Variable ensembl : list event -> http_request -> http_response.

(** X7.  Whatever it is called with, [perform_rest_action] sends exactly
    one request, after at most one pause, and ends in one of three ways:
    with an answer that is not [ok] it raises the [HTTPError] of that
    answer, with an [ok] answer that does not decode it raises
    [JSONDecodeError], and otherwise it returns the decoded document of
    that very answer.  It never leaves through [sys.exit]: line 49 is dead
    code.  The address of the server and the ceiling are left alone. *)
Theorem perform_rest_action_outcomes (endpoint : string) (hdrs : list (string * string))
    (params : dict param) (regions : option (dict (list string))) (s : state) :
  let run := perform_rest_action urlencode json_dumps ensembl
               endpoint hdrs params regions s in
  exists sleeps req resp,
    trace (snd run) = (trace s ++ sleeps ++ [Http req resp])%list
    /\ (sleeps = [] \/ exists d, sleeps = [Sleep d])
    /\ fst run = (if ok resp
                  then match decoded resp with
                       | Some d => Return d
                       | None => Raise JSONDecodeError
                       end
                  else Raise (HTTPError resp))
    /\ (forall code, fst run <> Raise (SystemExit code))
    /\ server (self (snd run)) = server (self s)
    /\ reqs_per_sec (self (snd run)) = reqs_per_sec (self s).
Proof.
  intros run.
  destruct (perform_rest_action_run urlencode json_dumps ensembl
              endpoint hdrs params regions s)
    as (s1 & sleeps & o & s' & R & Htr & _ & _ & P & Hsrv & Hrps & Hlast).
  unfold run. rewrite P. cbn [fst snd]. cbv zeta in Hlast.
  match type of Hlast with
  | (trace s' = (trace s1 ++ [Http ?rq ?rp])%list) /\ _ =>
      set (resp0 := rp) in *; set (req0 := rq) in *
  end.
  destruct Hlast as [Hs' Hend].
  exists sleeps, req0, resp0.
  split; [rewrite Hs', Htr, <- app_assoc; reflexivity|].
  split.
  { destruct (rate_limit_cases s) as [(_ & R') | [(_ & _ & R') | (_ & _ & R')]];
      rewrite R' in R; injection R as <-; cbn [trace] in Htr.
    - left. rewrite <- (app_nil_r (trace s)) in Htr at 1.
      now apply app_inv_head in Htr.
    - right. apply app_inv_head in Htr. eauto.
    - left. rewrite <- (app_nil_r (trace s)) in Htr at 1.
      now apply app_inv_head in Htr. }
  destruct Hend as [(Hok & -> & _) | [(Hok & Hnone & -> & _) | (Hok & d & Hd & -> & _)]].
  - rewrite Hok. repeat split; auto. discriminate.
  - rewrite Hok, Hnone. repeat split; auto. discriminate.
  - rewrite Hok, Hd. repeat split; auto. discriminate.
Qed.

(** X8.  [get_genomes] and [get_assemblies] each send one GET, with the
    [Content-Type] header, to [/info/species?] and to
    [/info/assembly/<species>?] on the server of the client, whatever the
    answer is.  When the call ends with the [HTTPError] or the
    [JSONDecodeError] of that request, nothing has been printed, not even
    the head of the table. *)
Theorem catalogue_sends_one_get (species : string) (s : state) :
  let genomes := get_genomes urlencode json_dumps ensembl s in
  let versions := get_assemblies urlencode json_dumps ensembl species s in
  (exists evs,
     trace (snd genomes) = (trace s ++ evs)%list
     /\ requests_of evs
        = [GET (server (self s) ++ "/info/species" ++ "?")
               [("Content-Type", "application/json")]]
     /\ ((fst genomes = Raise JSONDecodeError
          \/ exists resp, fst genomes = Raise (HTTPError resp)) ->
         outputs evs = []))
  /\ (exists evs,
        trace (snd versions) = (trace s ++ evs)%list
        /\ requests_of evs
           = [GET (server (self s) ++ ("/info/assembly/" ++ species) ++ "?")
                  [("Content-Type", "application/json")]]
        /\ ((fst versions = Raise JSONDecodeError
             \/ exists resp, fst versions = Raise (HTTPError resp)) ->
            outputs evs = [])).
Proof.
  intros genomes versions.
  assert (Printed : forall {A} (line : A -> string) (l : list A),
            requests_of (map (fun i => Out Stdout (line i ++ PyStr.newline)%string) l)
            = []) by (intros A line l; induction l; auto).
  assert (One : forall sleeps req resp rest,
            Forall (fun e => is_sleep e = true) sleeps ->
            requests_of rest = [] ->
            requests_of ((sleeps ++ [Http req resp]) ++ rest)%list = [req]).
  { intros sleeps req resp rest Hsl Hrest. unfold requests_of in *.
    rewrite !flat_map_app, Hrest. fold (requests_of sleeps).
    now rewrite (requests_of_sleeps _ Hsl). }
  assert (Quiet : forall sleeps req resp,
            Forall (fun e => is_sleep e = true) sleeps ->
            outputs ((sleeps ++ [Http req resp]) ++ [])%list = []).
  { intros sleeps req resp Hsl. rewrite app_nil_r. apply outputs_none.
    apply Forall_app. split; [now apply sleeps_no_output | repeat constructor]. }
  split.
  - unfold genomes.
    destruct (get_genomes urlencode json_dumps ensembl s) as [og sg] eqn:E.
    cbn [fst snd]. unfold get_genomes in E. cbv zeta in E.
    match type of E with
    | context [perform_rest_action _ _ _ ?e ?h ?p ?r] =>
        destruct (perform_rest_action_run urlencode json_dumps ensembl e h p r s)
          as (s1 & sleeps & o & s' & _ & Htr & Hsl & _ & P & _ & _ & Hlast)
    end.
    cbv zeta in Hlast. destruct Hlast as [Hs' _].
    rewrite Htr, <- app_assoc in Hs'. cbn [app] in Hs'.
    unfold bind at 1 in E. rewrite P in E.
    destruct o as [[l|v|[|x l]]|e]; cbn [doc_truthy] in E.
    + unfold bind in E. cbn [print emit] in E. rewrite for_each_print in E.
      injection E as <- <-. cbn [trace].
      rewrite Hs', <- !app_assoc. cbn [app].
      match goal with
      | |- exists evs, (trace s ++ sleeps ++ ?ev :: ?rest)%list = _ /\ _ =>
          exists ((sleeps ++ [ev]) ++ rest)%list
      end.
      split; [rewrite <- !app_assoc; reflexivity|].
      split; [|intros [E | [resp E]]; discriminate E].
      apply One; [exact Hsl|]. exact (Printed _ genome_line (sorted name l)).
    + injection E as <- <-.
      rewrite Hs'.
      match goal with
      | |- exists evs, (trace s ++ sleeps ++ [?ev])%list = _ /\ _ =>
          exists ((sleeps ++ [ev]) ++ [])%list
      end.
      split; [rewrite app_nil_r; reflexivity|].
      split; [now apply One|]. intros _. now apply Quiet.
    + injection E as <- <-.
      rewrite Hs'.
      match goal with
      | |- exists evs, (trace s ++ sleeps ++ [?ev])%list = _ /\ _ =>
          exists ((sleeps ++ [ev]) ++ [])%list
      end.
      split; [rewrite app_nil_r; reflexivity|].
      split; [now apply One|]. intros _. now apply Quiet.
    + injection E as <- <-.
      rewrite Hs'.
      match goal with
      | |- exists evs, (trace s ++ sleeps ++ [?ev])%list = _ /\ _ =>
          exists ((sleeps ++ [ev]) ++ [])%list
      end.
      split; [rewrite app_nil_r; reflexivity|].
      split; [now apply One|]. intros _. now apply Quiet.
    + injection E as <- <-.
      rewrite Hs'.
      match goal with
      | |- exists evs, (trace s ++ sleeps ++ [?ev])%list = _ /\ _ =>
          exists ((sleeps ++ [ev]) ++ [])%list
      end.
      split; [rewrite app_nil_r; reflexivity|].
      split; [now apply One|]. intros _. now apply Quiet.
  - unfold versions.
    destruct (get_assemblies urlencode json_dumps ensembl species s) as [og sg] eqn:E.
    cbn [fst snd]. unfold get_assemblies in E. cbv zeta in E.
    match type of E with
    | context [perform_rest_action _ _ _ ?e ?h ?p ?r] =>
        destruct (perform_rest_action_run urlencode json_dumps ensembl e h p r s)
          as (s1 & sleeps & o & s' & _ & Htr & Hsl & _ & P & _ & _ & Hlast)
    end.
    cbv zeta in Hlast. destruct Hlast as [Hs' _].
    rewrite Htr, <- app_assoc in Hs'. cbn [app] in Hs'.
    unfold bind at 1 in E. rewrite P in E.
    destruct o as [[l|v|[|x l]]|e]; cbn [doc_truthy] in E.
    + injection E as <- <-.
      rewrite Hs'.
      match goal with
      | |- exists evs, (trace s ++ sleeps ++ [?ev])%list = _ /\ _ =>
          exists ((sleeps ++ [ev]) ++ [])%list
      end.
      split; [rewrite app_nil_r; reflexivity|].
      split; [now apply One|]. intros _. now apply Quiet.
    + unfold print in E. rewrite (for_each_print (fun v => v)) in E.
      injection E as <- <-. cbn [trace].
      rewrite Hs', <- !app_assoc. cbn [app].
      match goal with
      | |- exists evs, (trace s ++ sleeps ++ ?ev :: ?rest)%list = _ /\ _ =>
          exists ((sleeps ++ [ev]) ++ rest)%list
      end.
      split; [rewrite <- !app_assoc; reflexivity|].
      split; [|intros [E | [resp E]]; discriminate E].
      apply One; [exact Hsl|]. exact (Printed _ (fun v => v) v).
    + injection E as <- <-.
      rewrite Hs'.
      match goal with
      | |- exists evs, (trace s ++ sleeps ++ [?ev])%list = _ /\ _ =>
          exists ((sleeps ++ [ev]) ++ [])%list
      end.
      split; [rewrite app_nil_r; reflexivity|].
      split; [now apply One|]. intros _. now apply Quiet.
    + injection E as <- <-.
      rewrite Hs'.
      match goal with
      | |- exists evs, (trace s ++ sleeps ++ [?ev])%list = _ /\ _ =>
          exists ((sleeps ++ [ev]) ++ [])%list
      end.
      split; [rewrite app_nil_r; reflexivity|].
      split; [now apply One|]. intros _. now apply Quiet.
    + injection E as <- <-.
      rewrite Hs'.
      match goal with
      | |- exists evs, (trace s ++ sleeps ++ [?ev])%list = _ /\ _ =>
          exists ((sleeps ++ [ev]) ++ [])%list
      end.
      split; [rewrite app_nil_r; reflexivity|].
      split; [now apply One|]. intros _. now apply Quiet.
Qed.

End Queries.

Section Assemblies.

Variable urlencode : dict param -> string.
Variable json_dumps : dict (list string) -> string.
Variable ensembl : list event -> http_request -> http_response.

(** X9.  When the server answers with the coordinate system versions of a
    species, [get_assemblies] returns after it has printed them one on a
    line, all of them and nothing else, in the order of the answer: they
    are neither sorted nor stripped of repetitions. *)
Theorem assemblies_in_server_order (species : string) (versions : list string)
    (s s' : state) o (evs : list event) :
  (forall t req, ok (ensembl t req) = true
                 /\ decoded (ensembl t req) = Some (CoordSystems versions)) ->
  get_assemblies urlencode json_dumps ensembl species s = (o, s') ->
  trace s' = (trace s ++ evs)%list ->
  o = Return tt
  /\ outputs evs = map (fun v => Out Stdout (v ++ PyStr.newline)%string) versions.
Proof.
  intros Hsrv E Tr. unfold get_assemblies in E. cbv zeta in E.
  match type of E with
  | context [perform_rest_action _ _ _ ?e ?h ?p ?r] =>
      destruct (perform_rest_action_run urlencode json_dumps ensembl e h p r s)
        as (s1 & sleeps & o1 & s2 & _ & Htr & Hsl & _ & P & _ & _ & Hlast)
  end.
  cbv zeta in Hlast. destruct Hlast as [Hs2 Hend].
  match type of Hs2 with
  | trace s2 = (trace s1 ++ [Http ?rq ?rp])%list =>
      destruct (Hsrv (trace s1) rq) as [Hok Hdec]
  end.
  destruct Hend as [(Hbad & _) | [(_ & Hnone & _) | (_ & d & Hd & Ho & _)]];
    [congruence | congruence |].
  rewrite Hdec in Hd. injection Hd as <-. subst o1.
  unfold bind at 1 in E. rewrite P in E. cbn [doc_truthy] in E.
  unfold print in E. rewrite (for_each_print (fun v => v)) in E.
  injection E as <- <-. split; [reflexivity|].
  cbn [trace] in Tr. rewrite Hs2, Htr, <- !app_assoc in Tr.
  apply app_inv_head in Tr. subst evs.
  rewrite !outputs_app, (outputs_none sleeps (sleeps_no_output _ Hsl)).
  cbn [app outputs filter is_output].
  clear. induction versions as [|v versions IH]; [reflexivity|].
  cbn [map]. unfold outputs in *. cbn [filter is_output]. now rewrite IH.
Qed.

End Assemblies.

Lemma assemblies_in_server_order_witness :
  let run := get_assemblies Example.urlencode Example.json_dumps Example.assemblies
               "homo_sapiens" start_state in
  fst run = Return tt
  /\ outputs (trace (snd run))
     = map (fun v => Out Stdout (v ++ PyStr.newline)%string) ["GRCh38"; "GRCh37"].
Proof.
  intros run.
  exact (assemblies_in_server_order Example.urlencode Example.json_dumps
           Example.assemblies "homo_sapiens" ["GRCh38"; "GRCh37"]
           start_state (snd run) (fst run) (trace (snd run))
           (fun _ _ => conj eq_refl eq_refl) (surjective_pairing _) eq_refl).
Defined.

(** ** How [get_regions] fails *)

(** X10.  [get_regions] fails in five ways and no other.  It
    exits with status 1 when [read_csv] reports columns that do not match,
    after it has printed one line about the columns; and, without a word on
    the standard output, when the first row is read as floats or its
    [start] field is neither digits nor the header token.  It raises
    [IndexError] when no data row is there: an empty frame, or a header
    line alone.  It raises [UnboundLocalError] on every other [ValueError]
    of [read_csv], and it lets every other exception of [read_csv] pass,
    such as the [FileNotFoundError] of a path that is not there.  In each
    case the client and the clock are as before and no request was sent. *)
Theorem get_regions_failures (csv : csv_result) (s s' : state) (e : exn) :
  get_regions csv s = (Raise e, s') ->
  self s' = self s /\ clock s' = clock s
  /\ ((e = SystemExit 1
       /\ exists msg, csv = ReadValueError msg
          /\ PyStr.contains "Usecols do not match columns" msg = true
          /\ trace s'
             = (trace s ++ [Out Stdout
                  (PyStr.newline
                     ++ " Error: Please check the indentation of the columns in input bed file"
                     ++ PyStr.newline)%string])%list)
      \/ (e = SystemExit 1 /\ s' = s
          /\ exists first rest, csv = Frame (first :: rest)
             /\ (row_dtype (first :: rest) = float64
                 \/ (PyStr.isdigit (astype_str (start first)) = false
                     /\ start first <> CStr "start" /\ start first <> CStr "Start")))
      \/ (e = IndexError /\ s' = s
          /\ (csv = Frame []
              \/ exists header, csv = Frame [header]
                 /\ (start header = CStr "start" \/ start header = CStr "Start")))
      \/ (e = UnboundLocalError /\ s' = s
          /\ exists msg, csv = ReadValueError msg
             /\ PyStr.contains "Usecols do not match columns" msg = false)
      \/ (s' = s /\ exists class, e = Other class /\ csv = ReadRaises class)).
Proof.
  rewrite get_regions_cases. intros H.
  destruct csv as [[|first rest]|msg|msg].
  - injection H as <- <-. repeat split; auto. right; right; left. auto.
  - destruct (str_isdigit (start_cell (first :: rest) first)) eqn:D; [discriminate|].
    destruct (is_header_token (start_cell (first :: rest) first)) eqn:T.
    + destruct rest as [|second rest]; [|discriminate].
      injection H as <- <-. repeat split; auto.
      right; right; left. repeat split; auto. right. exists first.
      split; [reflexivity|].
      unfold start_cell in T.
      destruct (row_dtype [first]); try discriminate; now apply scalar_of_token.
    + injection H as <- <-. repeat split; auto.
      right; left. repeat split; auto. exists first, rest.
      split; [reflexivity|].
      destruct (row_dtype (first :: rest)) eqn:R; [| |now left| |];
        right; rewrite start_cell_as_is in D, T by (rewrite R; discriminate);
        rewrite scalar_of_isdigit in D; (split; [exact D|]);
        split; intros E; rewrite E in T; discriminate.
  - destruct (PyStr.contains "Usecols do not match columns" msg) eqn:C.
    + injection H as <- <-. cbn. repeat split; auto.
      left. split; [reflexivity|]. exists msg. repeat split; auto.
    + injection H as <- <-. repeat split; auto.
      right; right; right; left. repeat split; auto. eauto.
  - injection H as <- <-. repeat split; auto.
    right; right; right; right. eauto.
Qed.

Lemma get_regions_failures_witness :
  let s' := snd (get_regions (ReadValueError
                   "Usecols do not match columns, columns expected but not found: [2]")
                   start_state) in
  self s' = self start_state /\ clock s' = clock start_state
  /\ outputs (trace s')
     = [Out Stdout
          (PyStr.newline
             ++ " Error: Please check the indentation of the columns in input bed file"
             ++ PyStr.newline)%string].
Proof.
  intros s'.
  destruct (get_regions_failures
              (ReadValueError
                 "Usecols do not match columns, columns expected but not found: [2]")
              start_state s' (SystemExit 1) eq_refl) as (Hself & Hclock & _).
  exact (conj Hself (conj Hclock eq_refl)).
Defined.

(** X15.  The first row is read as floats exactly when the three columns
    are numeric and not all of one integer type: a table whose chromosomes
    are numbers and in which a field is missing, is a decimal fraction, or
    does not fit 63 bits.  Then [get_regions] exits with status 1 at the
    header check, whatever the [start] field of the first row is, also if
    it is a plain integer. *)
Theorem numeric_row_read_as_floats (first : row) (rest : list row) (s : state) :
  let reads := first :: rest in
  let a := column_dtype (map chrom reads) in
  let b := column_dtype (map start reads) in
  let c := column_dtype (map end_ reads) in
  (row_dtype reads = float64
   <-> is_numeric a = true /\ is_numeric b = true /\ is_numeric c = true
       /\ ~ (a = int64 /\ b = int64 /\ c = int64)
       /\ ~ (a = uint64 /\ b = uint64 /\ c = uint64))
  /\ (row_dtype reads = float64 ->
      get_regions (Frame reads) s = (Raise (SystemExit 1), s)).
Proof.
  intros reads a b c. split.
  - unfold row_dtype, common_dtype. fold a b c.
    destruct a, b, c; cbn; split;
      try discriminate; try (intros (A & B & C & D & E); try discriminate; tauto);
      intros _; repeat split; try reflexivity; intros (A & B & C); discriminate.
  - intros F. rewrite get_regions_cases. unfold reads, start_cell in *.
    now rewrite F.
Qed.

Lemma numeric_row_read_as_floats_witness :
  let reads := [mkRow (CInt 1) (CInt 5) (CFloat (PyStr.Finite false 200 0));
                mkRow (CInt 1) (CInt 7) CNaN] in
  PyStr.isdigit (astype_str (start (mkRow (CInt 1) (CInt 5)
                                      (CFloat (PyStr.Finite false 200 0))))) = true
  /\ get_regions (Frame reads) start_state = (Raise (SystemExit 1), start_state).
Proof.
  intros reads. split; [reflexivity|].
  exact (proj2 (numeric_row_read_as_floats
                  (mkRow (CInt 1) (CInt 5) (CFloat (PyStr.Finite false 200 0)))
                  [mkRow (CInt 1) (CInt 7) CNaN] start_state) eq_refl).
Defined.

(** ** Failures upstream *)

Lemma get_regions_raises (csv : csv_result) (s s' : state) (e : exn) :
  get_regions csv s = (Raise e, s') ->
  e = SystemExit 1 \/ e = IndexError \/ e = UnboundLocalError
  \/ exists class, e = Other class.
Proof.
  rewrite get_regions_cases. intros H.
  destruct csv as [[|first rest]|msg|msg].
  - injection H as <- _. auto.
  - destruct (str_isdigit _); [discriminate|].
    destruct (is_header_token _); [|injection H as <- _; auto].
    destruct rest; [injection H as <- _; auto | discriminate].
  - destruct (PyStr.contains "Usecols do not match columns" msg);
      injection H as <- _; auto.
  - injection H as <- _. eauto 6.
Qed.

Lemma write_loop_raises (dest : destination) (sequences : list item) :
  forall s e s',
    for_each sequences (fun sequence =>
      text <- format_record sequence ;;
      emit (Out dest (text ++ PyStr.newline)%string)) s = (Raise e, s') ->
    e = TypeError.
Proof.
  induction sequences as [|[r|k] sequences IH]; intros s e s' H.
  - discriminate.
  - cbn [for_each] in H. unfold bind at 1 in H. cbn in H. now apply IH in H.
  - now injection H as <- _.
Qed.

Section Upstream.

Variable urlencode : dict param -> string.
Variable json_dumps : dict (list string) -> string.
Variable ensembl : list event -> http_request -> http_response.

(** X11.  A run of [retrieve_seq] that ends with an [HTTPError] or with a
    [JSONDecodeError] has written nothing at all, to the standard output or
    to a file, and has opened no file: an answer that does not decode
    throws away the records of the batches before it just as a bad status
    does. *)
Theorem upstream_failure_writes_nothing (args : arguments) (csv : csv_result)
    (s s' : state) (e : exn) (evs : list event) :
  retrieve_seq urlencode json_dumps ensembl args csv s = (Raise e, s') ->
  trace s' = (trace s ++ evs)%list ->
  e = JSONDecodeError \/ (exists resp, e = HTTPError resp) ->
  outputs evs = [].
Proof.
  intros H Tr He.
  assert (Kind : e <> SystemExit 1 /\ e <> IndexError /\ e <> UnboundLocalError
                 /\ e <> TypeError)
    by (destruct He as [-> | [resp ->]]; repeat split; discriminate).
  destruct Kind as (K1 & K2 & K3 & K4).
  unfold retrieve_seq in H. unfold bind at 1 in H. cbn [set_self] in H.
  unfold bind at 1 in H.
  destruct (get_regions csv (mkState default_client (clock s) (trace s)))
    as [[regions|e1] s1] eqn:G.
  - pose proof (get_regions_return _ _ _ _ G) as ->.
    unfold bind at 1 in H. unfold submit_regions in H.
    match type of H with
    | context [submit_loop _ _ _ ?sp ?a ?r ?u ?d ?acc ?st] =>
        destruct (submit_loop urlencode json_dumps ensembl sp a r u d acc st)
          as [o2 s2] eqn:S
    end.
    apply submit_loop_requests in S as (evs2 & k & T2 & _ & _ & F2 & _).
    cbn [trace] in T2.
    destruct o2 as [sequences|e2].
    + exfalso. destruct sequences as [|x sequences]; [discriminate|].
      destruct (arg_output args) as [[|ch path]|].
      * apply write_loop_raises in H. congruence.
      * unfold bind at 1 in H. cbn [emit] in H.
        apply write_loop_raises in H. congruence.
      * apply write_loop_raises in H. congruence.
    + injection H as _ <-. rewrite Tr in T2. apply app_inv_head in T2. subst evs.
      now apply outputs_none.
  - exfalso. injection H as -> _.
    destruct (get_regions_raises _ _ _ _ G) as [E | [E | [E | [msg E]]]];
      try congruence.
    destruct He as [-> | [resp ->]]; discriminate.
Qed.

End Upstream.

Lemma upstream_failure_writes_nothing_witness :
  let run := retrieve_seq Example.urlencode Example.json_dumps Example.garbled
               Example.args (Frame (Example.rows 120)) start_state in
  fst run = Raise JSONDecodeError /\ outputs (trace (snd run)) = [].
Proof.
  intros run.
  assert (Run : run = (Raise JSONDecodeError, snd run)) by (vm_compute; reflexivity).
  split; [exact (f_equal fst Run)|].
  exact (upstream_failure_writes_nothing Example.urlencode Example.json_dumps
           Example.garbled Example.args (Frame (Example.rows 120)) start_state
           (snd run) JSONDecodeError (trace (snd run))
           Run eq_refl (or_introl eq_refl)).
Defined.

(** ** Witnesses of the lemmas on batches, names and the counter *)

Lemma get_regions_partition_witness :
  exists regions,
    get_regions (Frame (mkRow (CStr "chr1") (CInt 0) (CInt 10)
                          :: List.tl (Example.rows 101))) start_state
    = (Return regions, start_state)
    /\ List.concat (dict_values regions)
       = map region (canonicalize (mkRow (CStr "chr1") (CInt 0) (CInt 10)
                                     :: List.tl (Example.rows 101)))
    /\ List.length (dict_values regions)
       = Spec.batch_count (S (List.length (List.tl (Example.rows 101))))
    /\ Forall (fun b => (1 <= List.length b <= 50)%nat) (dict_values regions).
Proof.
  assert (Keys : NoDup (map first_region
                          (batches_of (canonicalize
                             (mkRow (CStr "chr1") (CInt 0) (CInt 10)
                                :: List.tl (Example.rows 101)))))).
  { vm_compute.
    constructor; [intros [H|[H|[]]]; discriminate|].
    constructor; [intros [H|[]]; discriminate|].
    constructor; [intros []|constructor]. }
  exact (get_regions_partition (mkRow (CStr "chr1") (CInt 0) (CInt 10))
           (List.tl (Example.rows 101)) start_state eq_refl Keys).
Defined.

Lemma canonical_chrom_plain_names_witness :
  canonical_chrom "X" = Spec.canonical_chrom "X"
  /\ canonical_chrom "chrM" = Spec.canonical_chrom "chrM"
  /\ (prefix "M" "X" = false ->
      canonical_chrom ("chr" ++ "X") = "X" /\ Spec.canonical_chrom ("chr" ++ "X") = "X").
Proof.
  exact (canonical_chrom_plain_names "X" eq_refl).
Defined.

Lemma canonicalize_strings_witness :
  canonicalize [mkRow (CStr "chrX") (CInt 1) (CInt 2); mkRow (CStr "7") (CInt 3) (CInt 4)]
  = map (fun r => mkRow (CStr (canonical_chrom (astype_str (chrom r))))
                        (start r) (end_ r))
        [mkRow (CStr "chrX") (CInt 1) (CInt 2); mkRow (CStr "7") (CInt 3) (CInt 4)].
Proof.
  apply canonicalize_strings.
  repeat constructor; eexists; reflexivity.
Defined.

Lemma retrieve_seq_counter_witness :
  let run := retrieve_seq Example.urlencode Example.json_dumps Example.fast
               Example.args (Frame (Example.rows 1501)) Example.at_noon in
  reqs_per_sec (self (snd run)) = 15%Z
  /\ (0 <= req_count (self (snd run)) <= 15)%Z.
Proof.
  intros run.
  exact (retrieve_seq_counter Example.urlencode Example.json_dumps Example.fast
           Example.args (Frame (Example.rows 1501)) Example.at_noon
           (fst run) (snd run) (surjective_pairing _)).
Defined.
